(** * Flow stack and flow executor of rasa-next

    A shallow embedding of
    - [src/rasa/cdu/flow_stack.py] (the stack of flow frames and its
      serialised form), and
    - [src/rasa/core/policies/flows/flow_executor.py] (the selection of the
      next step, the interpretation of one step and the turn loop with its
      circuit breaker),
    followed by the properties proved about them. *)

From Stdlib Require Import ZArith Floats.
From stdpp Require Import base strings list gmap.

Set Warnings "-register-all,-clear-no-such-hyp".
Local Open Scope Z_scope.

(** ** Python values, exceptions and lists *)

(** The values a [Dict[Text, Any]] can hold: slot values, frame contexts and
    the entries of a serialised frame. *)
Inductive value : Type :=
| VNone
| VBool (b : bool)
| VInt (z : Z)
| VFloat (f : float)
| VStr (s : string)
| VList (l : list value)
| VDict (m : gmap string value).

(** The built-in exceptions the modelled code can raise.  [IllTyped] marks a
    record entry that holds a value outside the annotated type of the
    dataclass field it is loaded into. *)
Inductive py_exn : Type :=
| KeyError (key : string)
| IndexError
| AttributeError
| NotImplementedError
| IllTyped (field : string)
| LibraryError (what : string).

(** A call either returns or raises. *)
Inductive result (E A : Type) : Type :=
| Ok (a : A)
| Raise (e : E).
Arguments Ok {E A} a.
Arguments Raise {E A} e.

#[global] Instance result_ret {E} : MRet (result E) := λ A a, Ok a.
#[global] Instance result_bind {E} : MBind (result E) := λ A B k r,
  match r with
  | Ok a => k a
  | Raise e => Raise e
  end.

(** [rmap f l] is the list comprehension [[f(x) for x in l]]: the elements
    are visited from left to right and the first exception ends it. *)
Fixpoint rmap {E A B} (f : A → result E B) (l : list A) : result E (list B) :=
  match l with
  | [] => Ok []
  | x :: l' =>
      match f x with
      | Ok y =>
          match rmap f l' with
          | Ok ys => Ok (y :: ys)
          | Raise e => Raise e
          end
      | Raise e => Raise e
      end
  end.

(** [d[key]] *)
Definition getitem (d : gmap string value) (key : string) : result py_exn value :=
  match d !! key with
  | Some v => Ok v
  | None => Raise (KeyError key)
  end.

(** [d.get(key)] *)
Definition dict_get (d : gmap string value) (key : string) : value :=
  match d !! key with
  | Some v => v
  | None => VNone
  end.

(** [l.insert(index, x)]: a negative index counts from the end, and an index
    out of range is clamped to the nearest end. *)
Definition py_insert {A} (index : Z) (x : A) (l : list A) : list A :=
  let n := Z.of_nat (length l) in
  let i := if index <? 0 then Z.max 0 (n + index) else Z.min index n in
  take (Z.to_nat i) l ++ x :: drop (Z.to_nat i) l.

(** [l.pop()]: the list without its last element, and that element. *)
Definition py_pop {A} (l : list A) : result py_exn (list A * A) :=
  match last l with
  | Some x => Ok (removelast l, x)
  | None => Raise IndexError
  end.

(** Truth value of an [Optional[Text]]. *)
Definition truthy (s : option string) : bool :=
  match s with
  | Some s => negb (String.eqb s EmptyString)
  | None => false
  end.

(** ** Flows ([rasa.shared.core.flows.flow])

    The flow classes are imported by both source files and declared in
    neither; their fields are the ones the source reads. *)

(** Modelled from the spec: the outgoing links of a step, each static
    (unconditional target), conditional (predicate and target) or else
    (fallback target).  An [ElseFlowLink] has no condition. *)
Inductive FlowLink : Type :=
| StaticFlowLink (target : string)
| IfFlowLink (target : string) (condition : option string)
| ElseFlowLink (target : string).

Definition link_target (l : FlowLink) : string :=
  match l with
  | StaticFlowLink t | IfFlowLink t _ | ElseFlowLink t => t
  end.

(** Modelled from the spec: [step.next], the ordered list of outgoing
    links. *)
Record FlowLinks : Type := { links : list FlowLink }.

(** Modelled from the spec: a rejection rule of a collect step. *)
Record SlotRejection : Type := { if_ : string; rejection_utter : string }.

(** Modelled from the spec: one entry of [SetSlotsFlowStep.slots], a dict
    with the entries ["key"] and ["value"]. *)
Record SlotAssignment : Type := { key : string; slot_value : value }.

(** Modelled from the spec: the step classes [run_step] dispatches on, with
    the fields it reads; [InternalFlowStep] stands for any other class. *)
Inductive FlowStepKind : Type :=
| CollectInformationFlowStep (collect utter : string)
    (rejections : list SlotRejection)
    (ask_before_filling reset_after_flow_ends : bool)
| ActionFlowStep (action : option string)
| LinkFlowStep (link : string)
| SetSlotsFlowStep (slots : list SlotAssignment)
| BranchFlowStep
| GenerateResponseFlowStep (generation_prompt : string)
| EndFlowStep
| InternalFlowStep (class_name : string).

(** Modelled from the spec: a step, with its id, its links and its kind. *)
Record FlowStep : Type := {
  id : string;
  next : FlowLinks;
  kind : FlowStepKind
}.

(** Modelled from the spec: a flow, with its id, its name and its steps. *)
Record Flow : Type := {
  flow_id_of : string;
  name : string;
  steps : list FlowStep
}.

(** The catalogue of flows.  [FlowsList.flow_by_id], [Flow.step_by_id],
    [Flow.readable_name] and the step id constants are defined outside the
    two source files and are taken as given. *)
Class FlowCatalog : Type := {
  FlowsList : Type;
  flow_by_id : FlowsList → string → option Flow;
  step_by_id : Flow → option string → option FlowStep;
  readable_name : Flow → string;
  START_STEP : string;
  END_STEP : string;
  continue_step_for_id : string → string
}.

(** ** [src/rasa/cdu/flow_stack.py] *)

Module flow_stack.

Inductive StackFrameType : Type :=
| INTERRUPT
| REMARK
| LINK
| CORRECTION
| REGULAR
| DOCSEARCH
| INTENTLESS.

#[global] Instance StackFrameType_eq_dec : EqDecision StackFrameType.
Proof. solve_decision. Defined.

(** [StackFrameType.value] *)
Definition frame_type_value (t : StackFrameType) : string :=
  match t with
  | INTERRUPT => "interrupt"
  | REMARK => "remark"
  | LINK => "link"
  | CORRECTION => "correction"
  | REGULAR => "regular"
  | DOCSEARCH => "docsearch"
  | INTENTLESS => "intentless"
  end.

(** [typ == t.value] for an arbitrary Python value [typ]. *)
Definition is_value_of (typ : value) (t : StackFrameType) : bool :=
  match typ with
  | VStr s => String.eqb s (frame_type_value t)
  | _ => false
  end.

(** [StackFrameType.from_str] *)
Definition from_str (typ : value) : result py_exn StackFrameType :=
  match typ with
  | VNone => Ok REGULAR
  | _ =>
      if is_value_of typ INTERRUPT then Ok INTERRUPT
      else if is_value_of typ LINK then Ok LINK
      else if is_value_of typ REGULAR then Ok REGULAR
      else if is_value_of typ CORRECTION then Ok CORRECTION
      else if is_value_of typ DOCSEARCH then Ok DOCSEARCH
      else if is_value_of typ INTENTLESS then Ok INTENTLESS
      else if is_value_of typ REMARK then Ok REMARK
      else Raise NotImplementedError
  end.

Definition STACK_FRAME_TYPES_WITH_USER_FLOWS : list StackFrameType :=
  [INTERRUPT; REGULAR; LINK].

Record FlowStackFrame : Type := {
  flow_id : string;
  step_id : string;
  frame_type : StackFrameType;
  context : option (gmap string value)
}.

(** Loading a record entry into a field annotated [Text]. *)
Definition as_text (field : string) (v : value) : result py_exn string :=
  match v with
  | VStr s => Ok s
  | _ => Raise (IllTyped field)
  end.

(** Loading a record entry into a field annotated
    [Optional[Dict[Text, Any]]]. *)
Definition as_optional_dict (field : string) (v : value)
  : result py_exn (option (gmap string value)) :=
  match v with
  | VNone => Ok None
  | VDict m => Ok (Some m)
  | _ => Raise (IllTyped field)
  end.

Definition of_optional_dict (c : option (gmap string value)) : value :=
  match c with
  | None => VNone
  | Some m => VDict m
  end.

(** [FlowStackFrame.from_dict] *)
Definition frame_from_dict (data : gmap string value)
  : result py_exn FlowStackFrame :=
  v_flow ← getitem data "flow_id";
  v_step ← getitem data "step_id";
  typ ← from_str (dict_get data "frame_type");
  v_context ← getitem data "context";
  f ← as_text "flow_id" v_flow;
  s ← as_text "step_id" v_step;
  c ← as_optional_dict "context" v_context;
   Ok {| flow_id := f; step_id := s; frame_type := typ; context := c |}.

(** [FlowStackFrame.as_dict] *)
Definition frame_as_dict (self : FlowStackFrame) : gmap string value :=
  list_to_map
    [ ("flow_id", VStr (flow_id self));
      ("step_id", VStr (step_id self));
      ("frame_type", VStr (frame_type_value (frame_type self)));
      ("context", of_optional_dict (context self)) ].

(** [FlowStackFrame.with_updated_id] *)
Definition with_updated_id (self : FlowStackFrame) (step_id' : string)
  : FlowStackFrame :=
  {| flow_id := flow_id self;
     step_id := step_id';
     frame_type := frame_type self;
     context := None |}.

Record FlowStack : Type := { frames : list FlowStackFrame }.

(** [FlowStack.from_dict] *)
Definition from_dict (data : list (gmap string value))
  : result py_exn FlowStack :=
  fs ← rmap frame_from_dict data; Ok {| frames := fs |}.

(** [FlowStack.as_dict] *)
Definition as_dict (self : FlowStack) : list (gmap string value) :=
  frame_as_dict <$> frames self.

(** [FlowStack.is_empty] *)
Definition is_empty (self : FlowStack) : bool :=
  bool_decide (length (frames self) = 0%nat).

(** [FlowStack.push] *)
Definition push (self : FlowStack) (frame : FlowStackFrame)
    (index : option Z) : FlowStack :=
  match index with
  | None => {| frames := frames self ++ [frame] |}
  | Some i => {| frames := py_insert i frame (frames self) |}
  end.

(** [FlowStack.pop]: the stack after the call and the frame returned. *)
Definition pop (self : FlowStack) : result py_exn (FlowStack * FlowStackFrame) :=
  p ← py_pop (frames self); Ok ({| frames := p.1 |}, p.2).

(** [FlowStack.top] *)
Definition top (self : FlowStack) : option FlowStackFrame :=
  if is_empty self then None else last (frames self).

(** [FlowStack.update] *)
Definition update (self : FlowStack) (frame : FlowStackFrame)
  : result py_exn FlowStack :=
  self' ← (if negb (is_empty self)
            then p ← pop self; Ok p.1
            else Ok self);
   Ok (push self' frame None).

(** [FlowStack.advance_top_flow]: the top frame is updated in place. *)
Definition advance_top_flow (self : FlowStack) (updated_id : string)
  : FlowStack :=
  match top self with
  | Some t =>
      {| frames := removelast (frames self) ++
                   [ {| flow_id := flow_id t; step_id := updated_id;
                        frame_type := frame_type t; context := context t |} ] |}
  | None => self
  end.

Section with_catalog.
Context `{FlowCatalog}.

(** [FlowStack.top_flow] *)
Definition top_flow (self : FlowStack) (flows : FlowsList) : option Flow :=
  match top self with
  | None => None
  | Some t => flow_by_id flows (flow_id t)
  end.

(** [FlowStack.topmost_user_frame] *)
Definition topmost_user_frame (self : FlowStack) (flows : FlowsList)
  : result py_exn (option FlowStep * option Flow) :=
  match
    List.find
      (λ frame, bool_decide (frame_type frame ∈ STACK_FRAME_TYPES_WITH_USER_FLOWS))
      (reverse (frames self))
  with
  | Some frame =>
      match flow_by_id flows (flow_id frame) with
      | Some flow => Ok (step_by_id flow (Some (step_id frame)), Some flow)
      | None => Raise AttributeError
      end
  | None => Ok (None, None)
  end.

(** [FlowStack.top_flow_step] *)
Definition top_flow_step (self : FlowStack) (flows : FlowsList)
  : option FlowStep :=
  match top self with
  | None => None
  | Some t =>
      match top_flow self flows with
      | None => None
      | Some f => step_by_id f (Some (step_id t))
      end
  end.

End with_catalog.

End flow_stack.

(** ** [src/rasa/core/policies/flows/flow_executor.py] *)

Module flow_executor.

(** *** What the executor imports *)

(** Modelled from the spec: [FlowStackFrameType], the type of a user flow
    frame, is declared outside the source files; the spec names the user
    flow types regular, link and interrupt. *)
Inductive FlowStackFrameType : Type :=
| INTERRUPT
| LINK
| REGULAR.

#[global] Instance FlowStackFrameType_eq_dec : EqDecision FlowStackFrameType.
Proof. solve_decision. Defined.

(** Modelled from the spec: the fields of the pattern frames the executor
    builds (collect information, completed, continue interrupted);
    [OtherPattern] stands for the pattern frames it does not build. *)
Inductive PatternFields : Type :=
| CollectInformationPattern (collect utter : string)
    (rejections : list SlotRejection)
| CompletedPattern (previous_flow_name : option string)
| ContinueInterruptedPattern (previous_flow_name : string)
| OtherPattern.

(** Modelled from the spec: the frame classes are declared outside the
    source files.  A [BaseFlowStackFrame] carries a flow id and a step id and
    is either a user flow frame or a pattern frame; any other
    [DialogueStackFrame] is not a flow frame. *)
Inductive DialogueStackFrame : Type :=
| UserFlowStackFrame (flow_id step_id : string) (frame_type : FlowStackFrameType)
| PatternFlowStackFrame (flow_id step_id : string) (fields : PatternFields)
| OtherStackFrame (type_name : string).

(** [isinstance(frame, BaseFlowStackFrame)] *)
Definition is_base_flow_frame (frame : DialogueStackFrame) : bool :=
  match frame with
  | UserFlowStackFrame _ _ _ | PatternFlowStackFrame _ _ _ => true
  | OtherStackFrame _ => false
  end.

(** [isinstance(frame, UserFlowStackFrame)] *)
Definition is_user_flow_frame (frame : DialogueStackFrame) : bool :=
  match frame with
  | UserFlowStackFrame _ _ _ => true
  | _ => false
  end.

(** Modelled from the spec: the dialogue stack, an ordered sequence of frames
    whose last element is the top. *)
Record DialogueStack : Type := { frames : list DialogueStackFrame }.

(** Modelled from the spec: the events of a tracker; the executor itself
    creates [SlotSet] events only. *)
Inductive Event : Type :=
| SlotSet (key : string) (value : value)
| OtherEvent (type_name : string).

(** Modelled from the spec: what the executor reads of a slot. *)
Record Slot : Type := { initial_value : value; has_been_set : bool }.

(** Modelled from the spec: the prediction of a turn, an action name (or
    none), a confidence, metadata and events. *)
Record FlowActionPrediction : Type := {
  action_name : option string;
  score : float;
  metadata : option (gmap string value);
  events : option (list Event)
}.

(** Modelled from the spec: the outcome of interpreting one step, either
    continue with the next step or pause and predict an action. *)
Inductive FlowStepResult : Type :=
| ContinueFlowWithNextStep (events : list Event)
| PauseFlowReturnPrediction (action_prediction : FlowActionPrediction).

(** [step_result.events] *)
Definition step_result_events (r : FlowStepResult) : list Event :=
  match r with
  | ContinueFlowWithNextStep evs => evs
  | PauseFlowReturnPrediction p => default [] (events p)
  end.

(** [isinstance(step_result, ContinueFlowWithNextStep)] *)
Definition is_continue (r : FlowStepResult) : bool :=
  match r with
  | ContinueFlowWithNextStep _ => true
  | PauseFlowReturnPrediction _ => false
  end.

(** The collaborators of the executor that live outside the source files:
    the tracker, the template engine (jinja2), the predicate engine (pypred),
    the response generator, the context of the stack and the names of the
    pattern flows and default actions. *)
Class Collaborators : Type := {
  Tracker : Type;
  tracker_events : Tracker → list Event;
  tracker_slot : Tracker → string → option Slot;
  current_slot_values : Tracker → gmap string value;
  update_with_events : Tracker → list Event → Tracker;
  jinja_render : string → gmap string value → result py_exn string;
  Predicate : Type;
  Predicate_init : string → result py_exn Predicate;
  Predicate_evaluate : Predicate → gmap string value → result py_exn bool;
  generate : FlowStep → Tracker → string;
  current_context : DialogueStack → gmap string value;
  FLOW_PATTERN_COLLECT_INFORMATION : string;
  FLOW_PATTERN_COMPLETED : string;
  FLOW_PATTERN_CONTINUE_INTERRUPTED : string;
  ACTION_LISTEN_NAME : string;
  ACTION_SEND_TEXT_NAME : string
}.

(** The two messages [run_step] raises a [FlowException] with. *)
Inductive FlowExceptionMessage : Type :=
| ActionNotSpecified (step : FlowStep)
| UnknownFlowStepType (step : FlowStep).

(** What a call into the executor can raise: a built-in or library
    exception, or one of the two exceptions of [flow_exceptions]. *)
Inductive exn : Type :=
| PyError (e : py_exn)
| FlowException (message : FlowExceptionMessage)
| FlowCircuitBreakerTrippedException (dialogue_stack : DialogueStack)
    (number_of_steps_taken : Z).

(** *** The executor's effects

    The dialogue stack is one object shared by every function of a turn and
    mutated in place; the structured log is written to throughout.  Both are
    threaded as state, and an exception leaves the state it was raised in. *)

Inductive LogLevel : Type := DEBUG | WARNING | ERROR.

Record LogRecord : Type := { level : LogLevel; event : string }.

Record State : Type := { stack : DialogueStack; log : list LogRecord }.

Definition M (A : Type) : Type := State → result exn A * State.

#[global] Instance M_ret : MRet M := λ A a s, (Ok a, s).
#[global] Instance M_bind : MBind M := λ A B k m s,
  match m s with
  | (Ok a, s') => k a s'
  | (Raise e, s') => (Raise e, s')
  end.

Definition raise {A} (e : exn) : M A := λ s, (Raise e, s).

(** A call into a library: its exception, if any, propagates. *)
Definition call {A} (r : result py_exn A) : M A :=
  match r with
  | Ok a => mret a
  | Raise e => raise (PyError e)
  end.

Definition get_stack : M DialogueStack := λ s, (Ok (stack s), s).

Definition set_frames (fs : list DialogueStackFrame) : M unit :=
  λ s, (Ok (), {| stack := {| frames := fs |}; log := log s |}).

(** [structlogger.<level>(event, ...)] *)
Definition structlog (lvl : LogLevel) (ev : string) : M unit :=
  λ s, (Ok (), {| stack := stack s;
                  log := log s ++ [ {| level := lvl; event := ev |} ] |}).

(** *** The dialogue stack

    [DialogueStack] is declared outside the source files.  Its operations
    are modelled from the spec, which gives it the operations of [FlowStack]
    in [flow_stack.py]: [is_empty], [top], [push] at the top or at an index,
    and [pop], which fails on an empty stack. *)

(** Modelled from the spec: [stack.is_empty()], as [FlowStack.is_empty]. *)
Definition is_empty : M bool :=
  stk ← get_stack; mret (bool_decide (length (frames stk) = 0%nat)).

(** Modelled from the spec: [stack.top()], as [FlowStack.top]. *)
Definition top : M (option DialogueStackFrame) :=
  stk ← get_stack; mret (last (frames stk)).

(** Modelled from the spec: [stack.push(frame, index)], as
    [FlowStack.push]. *)
Definition push (frame : DialogueStackFrame) (index : option Z) : M unit :=
  stk ← get_stack;
  match index with
  | None => set_frames (frames stk ++ [frame])
  | Some i => set_frames (py_insert i frame (frames stk))
  end.

(** Modelled from the spec: [stack.pop()], as [FlowStack.pop]. *)
Definition pop : M DialogueStackFrame :=
  stk ← get_stack;
  p ← call (py_pop (frames stk));
  _ ← set_frames p.1;
  mret p.2.

(** Modelled from the spec: [top_user_flow_frame] is declared outside the
    source files; it finds the nearest user flow frame, scanning from the top
    downward, as [FlowStack.topmost_user_frame] does. *)
Definition top_user_flow_frame (stk : DialogueStack) : option DialogueStackFrame :=
  List.find is_user_flow_frame (reverse (frames stk)).

Section executor.
Context `{FlowCatalog} `{Collaborators}.

Definition frame_flow_id (frame : DialogueStackFrame) : option string :=
  match frame with
  | UserFlowStackFrame f _ _ | PatternFlowStackFrame f _ _ => Some f
  | OtherStackFrame _ => None
  end.

Definition frame_step_id (frame : DialogueStackFrame) : option string :=
  match frame with
  | UserFlowStackFrame _ s _ | PatternFlowStackFrame _ s _ => Some s
  | OtherStackFrame _ => None
  end.

(** Modelled from the spec: [frame.flow(flows)], the flow the frame names in
    the catalogue, or [None] when the catalogue has none
    (as [FlowStack.top_flow] does for the top frame). *)
Definition frame_flow (frame : DialogueStackFrame) (flows : FlowsList)
  : option Flow :=
  f ← frame_flow_id frame; flow_by_id flows f.

(** Modelled from the spec: [frame.step(flows)], the step of the frame's flow
    the cursor is at (as [FlowStack.top_flow_step] does for the top frame). *)
Definition frame_step (frame : DialogueStackFrame) (flows : FlowsList)
  : option FlowStep :=
  flow ← frame_flow frame flows; step_by_id flow (frame_step_id frame).

(** The pattern frames, with the flow and start step each class defaults to. *)
Definition CollectInformationPatternFlowStackFrame (collect utter : string)
    (rejections : list SlotRejection) : DialogueStackFrame :=
  PatternFlowStackFrame FLOW_PATTERN_COLLECT_INFORMATION START_STEP
    (CollectInformationPattern collect utter rejections).

Definition CompletedPatternFlowStackFrame (previous_flow_name : option string)
  : DialogueStackFrame :=
  PatternFlowStackFrame FLOW_PATTERN_COMPLETED START_STEP
    (CompletedPattern previous_flow_name).

Definition ContinueInterruptedPatternFlowStackFrame (previous_flow_name : string)
  : DialogueStackFrame :=
  PatternFlowStackFrame FLOW_PATTERN_CONTINUE_INTERRUPTED START_STEP
    (ContinueInterruptedPattern previous_flow_name).

Definition MAX_NUMBER_OF_STEPS : Z := 250.

(** [render_template_variables] *)
Definition render_template_variables (text : string)
    (context : gmap string value) : result py_exn string :=
  jinja_render text context.

(** [is_condition_satisfied].  [document.update(...)] lets the slot values
    win over the entry ["context"]; the template is rendered and the
    predicate built before the [try] block is entered. *)
Definition is_condition_satisfied (predicate : string)
    (context : gmap string value) (tracker : Tracker) : M bool :=
  let context : gmap string value := {[ "context" := VDict context ]} in
  let document : gmap string value := current_slot_values tracker ∪ context in
  rendered ← call (render_template_variables predicate context);
  p ← call (Predicate_init rendered);
  match Predicate_evaluate p document with
  | Ok b => mret b
  | Raise e =>
      _ ← structlog ERROR "flow.predicate.error";
      mret false
  end.

(** [is_step_end_of_flow] *)
Definition is_step_end_of_flow (step : FlowStep) : bool :=
  String.eqb (id step) END_STEP
  || String.eqb (id step) (continue_step_for_id END_STEP).

(** The first loop of [select_next_step_id]: the target of the first
    [IfFlowLink] with a condition that is satisfied. *)
Fixpoint select_if_link (ls : list FlowLink)
    (condition_evaluation_context : gmap string value) (tracker : Tracker)
  : M (option string) :=
  match ls with
  | [] => mret None
  | IfFlowLink target (Some condition) :: ls' =>
      if truthy (Some condition) then
        b ← is_condition_satisfied condition condition_evaluation_context tracker;
        if b : bool then mret (Some target)
        else select_if_link ls' condition_evaluation_context tracker
      else select_if_link ls' condition_evaluation_context tracker
  | _ :: ls' => select_if_link ls' condition_evaluation_context tracker
  end.

(** [isinstance(link, ElseFlowLink)] *)
Definition is_else_link (l : FlowLink) : bool :=
  match l with
  | ElseFlowLink _ => true
  | _ => false
  end.

(** [isinstance(step, LinkFlowStep)] *)
Definition is_link_step (step : FlowStep) : bool :=
  match kind step with
  | LinkFlowStep _ => true
  | _ => false
  end.

(** [select_next_step_id] *)
Definition select_next_step_id (current : FlowStep)
    (condition_evaluation_context : gmap string value) (tracker : Tracker)
  : M (option string) :=
  let next := next current in
  match links next with
  | [StaticFlowLink target] => mret (Some target)
  | _ =>
      r ← select_if_link (links next) condition_evaluation_context tracker;
      match r with
      | Some target => mret (Some target)
      | None =>
          match List.find is_else_link (links next) with
          | Some link => mret (Some (link_target link))
          | None =>
              if negb (bool_decide (links next = [])) then
                _ ← structlog ERROR "flow.link.failed_to_select_branch";
                mret None
              else if String.eqb (id current) END_STEP then mret None
              else if is_link_step current then mret (Some END_STEP)
              else
                _ ← structlog ERROR "flow.step.failed_to_select_next_step";
                mret None
          end
      end
  end.

(** [select_next_step].  [current_step] and [current_flow] come from the
    catalogue and may be [None]; reading [current.next] or calling
    [current_flow.step_by_id] on [None] raises [AttributeError]. *)
Definition select_next_step (current_step : option FlowStep)
    (current_flow : option Flow) (tracker : Tracker) : M (option FlowStep) :=
  stk ← get_stack;
  current ← (match current_step with
             | Some c => mret c
             | None => raise (PyError AttributeError)
             end);
  next_id ← select_next_step_id current (current_context stk) tracker;
  flow ← (match current_flow with
          | Some f => mret f
          | None => raise (PyError AttributeError)
          end);
  let step := step_by_id flow next_id in
  _ ← structlog DEBUG "flow.step.next";
  mret step.

(** The frame with its cursor moved, for a [BaseFlowStackFrame]. *)
Definition with_step_id (frame : DialogueStackFrame) (updated_id : string)
  : DialogueStackFrame :=
  match frame with
  | UserFlowStackFrame f _ t => UserFlowStackFrame f updated_id t
  | PatternFlowStackFrame f _ p => PatternFlowStackFrame f updated_id p
  | OtherStackFrame n => OtherStackFrame n
  end.

(** [advance_top_flow_on_stack]: the top frame is updated in place. *)
Definition advance_top_flow_on_stack (updated_id : string) : M unit :=
  stk ← get_stack;
  match last (frames stk) with
  | Some t =>
      if is_base_flow_frame t
      then set_frames (removelast (frames stk) ++ [with_step_id t updated_id])
      else mret ()
  | None => mret ()
  end.

(** [events_from_set_slots_step] *)
Definition events_from_set_slots_step (slots : list SlotAssignment)
  : list Event :=
  (λ slot, SlotSet (key slot) (slot_value slot)) <$> slots.

(** [events_for_collect_step] *)
Definition events_for_collect_step (collect : string)
    (ask_before_filling : bool) (tracker : Tracker) : list Event :=
  match tracker_slot tracker collect with
  | Some slot =>
      if has_been_set slot && ask_before_filling
      then [SlotSet collect (initial_value slot)]
      else []
  | None => []
  end.

(** [trigger_pattern_continue_interrupted] *)
Definition trigger_pattern_continue_interrupted
    (current_frame : DialogueStackFrame) (flows : FlowsList) : M unit :=
  stk ← get_stack;
  let previous_user_flow_frame := top_user_flow_frame stk in
  let previous_user_flow_step :=
    match previous_user_flow_frame with
    | Some f => frame_step f flows
    | None => None
    end in
  let previous_user_flow :=
    match previous_user_flow_frame with
    | Some f => frame_flow f flows
    | None => None
    end in
  match current_frame, previous_user_flow_step, previous_user_flow with
  | UserFlowStackFrame _ _ frame_type, Some step, Some flow =>
      if bool_decide (frame_type = INTERRUPT) && negb (is_step_end_of_flow step)
      then push (ContinueInterruptedPatternFlowStackFrame (readable_name flow)) None
      else mret ()
  | _, _, _ => mret ()
  end.

(** [trigger_pattern_completed] *)
Definition trigger_pattern_completed
    (current_frame : DialogueStackFrame) (flows : FlowsList) : M unit :=
  empty ← is_empty;
  if negb empty || negb (is_user_flow_frame current_frame) then mret ()
  else
    let completed_flow := frame_flow current_frame flows in
    let completed_flow_name :=
      match completed_flow with
      | Some f => Some (readable_name f)
      | None => None
      end in
    push (CompletedPatternFlowStackFrame completed_flow_name) None.

(** [trigger_pattern_ask_collect_information] *)
Definition trigger_pattern_ask_collect_information (collect : string)
    (rejections : list SlotRejection) (utter : string) : M unit :=
  push (CollectInformationPatternFlowStackFrame collect utter rejections) None.

(** [_reset_slot], the event it appends. *)
Definition _reset_slot (slot_name : string) (dialogue_tracker : Tracker)
  : Event :=
  let initial_value :=
    match tracker_slot dialogue_tracker slot_name with
    | Some slot => initial_value slot
    | None => VNone
    end in
  SlotSet slot_name initial_value.

(** The first loop of [reset_scoped_slots]: the events appended and the
    names added to [not_resettable_slot_names]. *)
Fixpoint scan_collect_steps (steps : list FlowStep) (tracker : Tracker)
    (events : list Event) (not_resettable_slot_names : gset string)
  : list Event * gset string :=
  match steps with
  | [] => (events, not_resettable_slot_names)
  | step :: steps' =>
      match kind step with
      | CollectInformationFlowStep collect _ _ _ reset_after_flow_ends =>
          if reset_after_flow_ends
          then scan_collect_steps steps' tracker
                 (events ++ [_reset_slot collect tracker])
                 not_resettable_slot_names
          else scan_collect_steps steps' tracker events
                 (not_resettable_slot_names ∪ {[ collect ]})
      | _ => scan_collect_steps steps' tracker events not_resettable_slot_names
      end
  end.

(** The comprehension [resettable_set_slots] of [reset_scoped_slots]. *)
Definition resettable_set_slots (steps : list FlowStep)
    (not_resettable_slot_names : gset string) : list string :=
  step ← steps;
  match kind step with
  | SetSlotsFlowStep slots =>
      slot ← slots;
      if bool_decide (key slot ∉ not_resettable_slot_names)
      then [key slot] else []
  | _ => []
  end.

(** [reset_scoped_slots] *)
Definition reset_scoped_slots (current_flow : Flow) (tracker : Tracker)
  : list Event :=
  let '(events, not_resettable_slot_names) :=
    scan_collect_steps (steps current_flow) tracker [] ∅ in
  events ++
  ((λ name, _reset_slot name tracker) <$>
     resettable_set_slots (steps current_flow) not_resettable_slot_names).

(** [FlowActionPrediction(action_name, score)] *)
Definition prediction (action_name : option string) (score : float)
  : FlowActionPrediction :=
  {| action_name := action_name; score := score;
     metadata := None; events := None |}.

(** [run_step].  [flow] is the caller's [current_flow]; only the end of a
    flow reads it. *)
Definition run_step (step : FlowStep) (flow : option Flow) (tracker : Tracker)
    (available_actions : list string) (flows : FlowsList) : M FlowStepResult :=
  match kind step with
  | CollectInformationFlowStep collect utter rejections ask_before_filling _ =>
      _ ← structlog DEBUG "flow.step.run.collect";
      _ ← trigger_pattern_ask_collect_information collect rejections utter;
      let events := events_for_collect_step collect ask_before_filling tracker in
      mret (ContinueFlowWithNextStep events)
  | ActionFlowStep action =>
      match action with
      | Some action' =>
          if truthy action then
            stk ← get_stack;
            let context : gmap string value :=
              {[ "context" := VDict (current_context stk) ]} in
            action_name ← call (render_template_variables action' context);
            if bool_decide (action_name ∈ available_actions) then
              _ ← structlog DEBUG "flow.step.run.action";
              mret (PauseFlowReturnPrediction
                      (prediction (Some action_name) 1.0%float))
            else
              _ ← structlog WARNING "flow.step.run.action.unknown";
              mret (ContinueFlowWithNextStep [])
          else raise (FlowException (ActionNotSpecified step))
      | None => raise (FlowException (ActionNotSpecified step))
      end
  | LinkFlowStep link =>
      _ ← structlog DEBUG "flow.step.run.link";
      _ ← push (UserFlowStackFrame link START_STEP LINK) (Some (-1));
      mret (ContinueFlowWithNextStep [])
  | SetSlotsFlowStep slots =>
      _ ← structlog DEBUG "flow.step.run.slot";
      let events := events_from_set_slots_step slots in
      mret (ContinueFlowWithNextStep events)
  | BranchFlowStep =>
      _ ← structlog DEBUG "flow.step.run.branch";
      mret (ContinueFlowWithNextStep [])
  | GenerateResponseFlowStep _ =>
      _ ← structlog DEBUG "flow.step.run.generate_response";
      let generated := generate step tracker in
      let action_prediction :=
        {| action_name := Some ACTION_SEND_TEXT_NAME;
           score := 1.0%float;
           metadata :=
             Some {[ "message" :=
                       VDict {[ "text" := VStr generated ]} ]};
           events := None |} in
      mret (PauseFlowReturnPrediction action_prediction)
  | EndFlowStep =>
      _ ← structlog DEBUG "flow.step.run.flow_end";
      current_frame ← pop;
      _ ← trigger_pattern_continue_interrupted current_frame flows;
      _ ← trigger_pattern_completed current_frame flows;
      match flow with
      | Some flow =>
          let reset_events := reset_scoped_slots flow tracker in
          mret (ContinueFlowWithNextStep reset_events)
      | None => raise (PyError AttributeError)
      end
  | InternalFlowStep _ => raise (FlowException (UnknownFlowStepType step))
  end.

(** The body of the loop of [select_next_action] below the circuit breaker:
    the tracker and the step result the iteration ends with.  [continue]
    leaves both as they were. *)
Definition loop_body (tracker : Tracker) (step_result : FlowStepResult)
    (available_actions : list string) (flows : FlowsList)
  : M (Tracker * FlowStepResult) :=
  active_frame ← top;
  match active_frame with
  | Some frame =>
      if is_base_flow_frame frame then
        _ ← structlog DEBUG "flow.execution.loop";
        let current_flow := frame_flow frame flows in
        current_step ← select_next_step (frame_step frame flows)
                         current_flow tracker;
        match current_step with
        | None => mret (tracker, step_result)
        | Some current_step =>
            _ ← advance_top_flow_on_stack (id current_step);
            step_result ← run_step current_step current_flow tracker
                            available_actions flows;
            mret (update_with_events tracker (step_result_events step_result),
                  step_result)
        end
      else
        mret (tracker,
              PauseFlowReturnPrediction
                (prediction (Some ACTION_LISTEN_NAME) 1.0%float))
  | None =>
      mret (tracker,
            PauseFlowReturnPrediction
              (prediction (Some ACTION_LISTEN_NAME) 1.0%float))
  end.

(** The [while] loop of [select_next_action], run for at most [fuel]
    iterations; [None] when the fuel runs out with the loop still going. *)
Fixpoint loop (fuel : nat) (number_of_steps_taken : Z) (tracker : Tracker)
    (step_result : FlowStepResult) (available_actions : list string)
    (flows : FlowsList) : M (option (Tracker * FlowStepResult)) :=
  if is_continue step_result then
    match fuel with
    | O => mret None
    | S fuel' =>
        let number_of_steps_taken := number_of_steps_taken + 1 in
        if number_of_steps_taken >? MAX_NUMBER_OF_STEPS then
          stk ← get_stack;
          raise (FlowCircuitBreakerTrippedException stk number_of_steps_taken)
        else
          r ← loop_body tracker step_result available_actions flows;
          loop fuel' number_of_steps_taken r.1 r.2 available_actions flows
    end
  else mret (Some (tracker, step_result)).

(** [select_next_action], with the fuel of its loop.  [available_actions] is
    [domain.action_names_or_texts]. *)
Definition select_next_action (fuel : nat) (tracker : Tracker)
    (available_actions : list string) (flows : FlowsList)
  : M (option FlowActionPrediction) :=
  let step_result := ContinueFlowWithNextStep [] in
  let number_of_initial_events := length (tracker_events tracker) in
  let number_of_steps_taken := 0 in
  r ← loop fuel number_of_steps_taken tracker step_result
        available_actions flows;
  match r with
  | None => mret None
  | Some (tracker, step_result) =>
      let gathered_events :=
        drop number_of_initial_events (tracker_events tracker) in
      match step_result with
      | PauseFlowReturnPrediction prediction =>
          mret (Some {| action_name := action_name prediction;
                        score := score prediction;
                        metadata := metadata prediction;
                        events := Some gathered_events |})
      | ContinueFlowWithNextStep _ =>
          _ ← structlog WARNING "flow.step.execution.no_action";
          mret (Some (prediction None 0.0%float))
      end
  end.

End executor.

End flow_executor.

(** ** Specification vocabulary

    Relations used to state the properties of the executor. *)

Module spec.
Import flow_executor.

Section spec.
Context `{FlowCatalog} `{Collaborators}.

(** A link the first loop of [select_next_step_id] passes over without
    evaluating anything: it is no [IfFlowLink], or it has no condition. *)
Definition unconditional (l : FlowLink) : Prop :=
  match l with
  | IfFlowLink _ (Some c) => c = EmptyString
  | _ => True
  end.

(** [none_satisfied ctx tracker ls st st']: evaluating, from the state [st]
    and in the order of [ls], the condition of every conditional link of
    [ls] yields false each time and ends in the state [st']. *)
Inductive none_satisfied (ctx : gmap string value) (tracker : Tracker)
  : list FlowLink → State → State → Prop :=
| none_satisfied_nil st :
    none_satisfied ctx tracker [] st st
| none_satisfied_skip l ls st st' :
    unconditional l →
    none_satisfied ctx tracker ls st st' →
    none_satisfied ctx tracker (l :: ls) st st'
| none_satisfied_false target c ls st st1 st2 :
    c ≠ EmptyString →
    is_condition_satisfied c ctx tracker st = (Ok false, st1) →
    none_satisfied ctx tracker ls st1 st2 →
    none_satisfied ctx tracker (IfFlowLink target (Some c) :: ls) st st2.

(** [iterations actions flows k c c']: [k] iterations of the loop of
    [select_next_action], each entered with a [ContinueFlowWithNextStep]
    result and each completed without an exception, lead from the tracker,
    step result and state [c] to [c']. *)
Inductive iterations (available_actions : list string) (flows : FlowsList)
  : nat → Tracker * FlowStepResult * State →
    Tracker * FlowStepResult * State → Prop :=
| iterations_O c :
    iterations available_actions flows 0 c c
| iterations_S k tracker step_result st tracker' step_result' st' c :
    is_continue step_result = true →
    loop_body tracker step_result available_actions flows st
      = (Ok (tracker', step_result'), st') →
    iterations available_actions flows k (tracker', step_result', st') c →
    iterations available_actions flows (S k) (tracker, step_result, st) c.

(** [isinstance(e, FlowCircuitBreakerTrippedException)] *)
Definition is_breaker (e : exn) : bool :=
  match e with
  | FlowCircuitBreakerTrippedException _ _ => true
  | _ => false
  end.

(** A computation that never trips the circuit breaker. *)
Definition no_breaker {A} (m : M A) : Prop :=
  ∀ st e st', m st = (Raise e, st') → is_breaker e = false.

(** The steps whose interpretation continues, whatever the stack, and leaves
    the top frame of the stack in place: a branch, set-slots or link step,
    and an action step whose name renders to a name that is not available. *)
Definition continues_in_place (available_actions : list string)
    (k : FlowStepKind) : Prop :=
  match k with
  | BranchFlowStep | SetSlotsFlowStep _ | LinkFlowStep _ => True
  | ActionFlowStep (Some a) =>
      a ≠ EmptyString ∧
      ∀ stk, ∃ action_name,
        render_template_variables a {[ "context" := VDict (current_context stk) ]}
        = Ok action_name ∧
        action_name ∉ available_actions
  | _ => False
  end.

(** Some [CollectInformationFlowStep] of the flow collects [x] with
    [reset_after_flow_ends] as given. *)
Definition collects (flow : Flow) (x : string) (reset_after_flow_ends : bool)
  : Prop :=
  ∃ step utter rejections ask_before_filling,
    step ∈ steps flow ∧
    kind step = CollectInformationFlowStep x utter rejections
                  ask_before_filling reset_after_flow_ends.

(** Some [SetSlotsFlowStep] of the flow writes [x]. *)
Definition sets (flow : Flow) (x : string) : Prop :=
  ∃ step slots slot,
    step ∈ steps flow ∧ kind step = SetSlotsFlowStep slots ∧
    slot ∈ slots ∧ key slot = x.

End spec.
End spec.

(** ** A small catalogue and small collaborators for the examples *)

Module examples.
Import flow_executor.

Definition catalog : FlowCatalog := {|
  FlowsList := list Flow;
  flow_by_id flows i := List.find (λ f, String.eqb (flow_id_of f) i) flows;
  step_by_id flow i :=
    match i with
    | Some i => List.find (λ s, String.eqb (id s) i) (steps flow)
    | None => None
    end;
  readable_name := name;
  START_STEP := "START";
  END_STEP := "END";
  continue_step_for_id i := "NEXT:" +:+ i
|}.

(** A tracker that keeps its events and its slots. *)
Record tracker : Type := {
  events_of : list Event;
  slots_of : gmap string Slot
}.

(** The template engine rejects the unclosed variable tag ["{{"] with a
    syntax error, as jinja2 does, and renders a text without tags as it is;
    the predicate engine knows the predicates ["true"] and ["false"] and
    fails to evaluate anything else. *)
Definition collaborators : Collaborators := {|
  Tracker := tracker;
  tracker_events := events_of;
  tracker_slot t n := slots_of t !! n;
  current_slot_values t := initial_value <$> slots_of t;
  update_with_events t evs :=
    {| events_of := events_of t ++ evs; slots_of := slots_of t |};
  jinja_render text _ :=
    if String.eqb text "{{"
    then Raise (LibraryError "jinja2.exceptions.TemplateSyntaxError")
    else Ok text;
  Predicate := string;
  Predicate_init text := Ok text;
  Predicate_evaluate p _ :=
    if String.eqb p "true" then Ok true
    else if String.eqb p "false" then Ok false
    else Raise (LibraryError "pypred.predicate.InvalidPredicate");
  generate _ _ := EmptyString;
  current_context _ := ∅;
  FLOW_PATTERN_COLLECT_INFORMATION := "pattern_collect_information";
  FLOW_PATTERN_COMPLETED := "pattern_completed";
  FLOW_PATTERN_CONTINUE_INTERRUPTED := "pattern_continue_interrupted";
  ACTION_LISTEN_NAME := "action_listen";
  ACTION_SEND_TEXT_NAME := "action_send_text"
|}.

Definition empty_tracker : @Tracker collaborators :=
  {| events_of := []; slots_of := ∅ |}.

Definition flows_list (flows : list Flow) : @FlowsList catalog := flows.

Definition step (i : string) (ls : list FlowLink) (k : FlowStepKind)
  : FlowStep :=
  {| id := i; next := {| links := ls |}; kind := k |}.

Definition state (fs : list DialogueStackFrame) : State :=
  {| stack := {| frames := fs |}; log := [] |}.

(** A step that branches on three conditions, the first one false. *)
Definition three_way : FlowStep :=
  step "ask"
    [ IfFlowLink "first" (Some "false");
      IfFlowLink "second" (Some "true");
      IfFlowLink "third" (Some "true");
      ElseFlowLink "otherwise" ]
    BranchFlowStep.

(** A flow whose only step routes back to itself. *)
Definition spinning : Flow :=
  {| flow_id_of := "spin"; name := "spinning";
     steps := [ step "a" [StaticFlowLink "a"] BranchFlowStep ] |}.

(** A flow whose only step routes back to itself and names an action. *)
Definition greeting : Flow :=
  {| flow_id_of := "greet"; name := "greeting";
     steps := [ step "a" [StaticFlowLink "a"]
                  (ActionFlowStep (Some "utter_greet")) ] |}.

(** A flow with two steps collecting [x], one resetting it at the end of the
    flow and one not, and a step setting [x]. *)
Definition twice_collected : Flow :=
  {| flow_id_of := "twice"; name := "twice collected";
     steps :=
       [ step "c1" [StaticFlowLink "c2"]
           (CollectInformationFlowStep "x" "utter_ask_x" [] true true);
         step "c2" [StaticFlowLink "s"]
           (CollectInformationFlowStep "x" "utter_ask_x" [] true false);
         step "s" [StaticFlowLink "END"]
           (SetSlotsFlowStep [ {| key := "x"; slot_value := VInt 1 |} ]) ] |}.

(** A flow with one step collecting [x] without resetting it and a step
    setting [x]. *)
Definition kept : Flow :=
  {| flow_id_of := "kept"; name := "kept";
     steps :=
       [ step "c" [StaticFlowLink "s"]
           (CollectInformationFlowStep "x" "utter_ask_x" [] true false);
         step "s" [StaticFlowLink "END"]
           (SetSlotsFlowStep [ {| key := "x"; slot_value := VInt 1 |} ]) ] |}.

End examples.

(** ** Further specification vocabulary *)

Module spec_more.
Import flow_executor.

(** A computation that touches the log only, and only by appending to it:
    whatever it returns or raises, the stack is as it was. *)
Definition only_logs {A} (m : M A) : Prop :=
  ∀ st, stack (m st).2 = stack st ∧ ∃ l, log (m st).2 = log st ++ l.

(** [returns P m]: whenever [m] returns, what it returns satisfies [P]. *)
Definition returns {A} (P : A → Prop) (m : M A) : Prop :=
  ∀ st a st', m st = (Ok a, st') → P a.

(** A prediction that names an action, with the confidence 1.0. *)
Definition named (p : FlowActionPrediction) : Prop :=
  ∃ name, action_name p = Some name ∧ score p = 1.0%float.

(** A step result that, if it pauses, pauses with a named action. *)
Definition pauses_named (r : FlowStepResult) : Prop :=
  match r with
  | PauseFlowReturnPrediction p => named p
  | ContinueFlowWithNextStep _ => True
  end.

(** The frame of a user flow that interrupted another one. *)
Definition is_interrupt_frame (frame : DialogueStackFrame) : bool :=
  match frame with
  | UserFlowStackFrame _ _ INTERRUPT => true
  | _ => false
  end.

Section flows.
Context `{Collaborators}.

(** The reset events of the collect steps that reset their slot after the
    flow ends, in the order of the steps. *)
Definition collect_resets (steps : list FlowStep) (tracker : Tracker)
  : list Event :=
  step ← steps;
  match kind step with
  | CollectInformationFlowStep c _ _ _ true => [_reset_slot c tracker]
  | _ => []
  end.

(** The slots of the collect steps that opt out of the reset. *)
Definition opted_out (steps : list FlowStep) : gset string :=
  list_to_set
    (step ← steps;
     match kind step with
     | CollectInformationFlowStep c _ _ _ false => [c]
     | _ => []
     end).

End flows.

End spec_more.

(** ** Further examples *)

Module examples_more.
Import flow_executor examples.

Definition remark_frame : flow_stack.FlowStackFrame :=
  {| flow_stack.flow_id := "chitchat"; flow_stack.step_id := "START";
     flow_stack.frame_type := flow_stack.REMARK;
     flow_stack.context := None |}.

Definition regular_frame : flow_stack.FlowStackFrame :=
  {| flow_stack.flow_id := "kept"; flow_stack.step_id := "c";
     flow_stack.frame_type := flow_stack.REGULAR;
     flow_stack.context := None |}.

(** A record with neither a frame type nor a context. *)
Definition bare_record : gmap string value :=
  {[ "flow_id" := VStr "kept"; "step_id" := VStr "c" ]}.

(** A flow whose first step has nowhere to go. *)
Definition stuck : Flow :=
  {| flow_id_of := "stuck"; name := "stuck";
     steps := [ step "a" [] BranchFlowStep ] |}.

(** A step with two conditions and no else. *)
Definition two_way : FlowStep :=
  step "ask"
    [ IfFlowLink "first" (Some "false");
      IfFlowLink "second" (Some "false") ]
    BranchFlowStep.

(** A flow that starts with an action. *)
Definition greeting_once : Flow :=
  {| flow_id_of := "hello"; name := "hello";
     steps := [ step "START" [StaticFlowLink "greet"] BranchFlowStep;
                step "greet" [StaticFlowLink "END"]
                  (ActionFlowStep (Some "utter_greet")) ] |}.

(** A tracker in which the slot [x] has been set. *)
Definition filled_tracker : @Tracker collaborators :=
  {| events_of := [];
     slots_of := {[ "x" := {| initial_value := VNone; has_been_set := true |} ]} |}.

End examples_more.

(** ** Properties of the flow stack *)

Module flow_stack_facts.
Import flow_stack.

Lemma from_str_value (t : StackFrameType) :
  from_str (VStr (frame_type_value t)) = Ok t.
Proof. by destruct t. Qed.

Lemma frame_from_dict_as_dict (f : FlowStackFrame) :
  frame_from_dict (frame_as_dict f) = Ok f.
Proof.
  destruct f as [fid sid ft ctx].
  unfold frame_from_dict, frame_as_dict, getitem, dict_get. simpl.
  rewrite !lookup_insert. repeat (case_decide; try done).
  by destruct ft, ctx.
Qed.

(** C7.  Deserialising the serialised form of a stack gives the stack back:
    [FlowStack.from_dict(S.as_dict()) == S], frame by frame and in order,
    with the flow id, step id, frame type and context of every frame. *)
Theorem from_dict_as_dict (S : FlowStack) : from_dict (as_dict S) = Ok S.
Proof.
  destruct S as [fs]. unfold from_dict, as_dict. simpl.
  assert (rmap frame_from_dict (frame_as_dict <$> fs) = Ok fs) as ->; [|done].
  induction fs as [|f fs IH]; [done|].
  simpl. rewrite frame_from_dict_as_dict. fold (fmap (M:=list) frame_as_dict fs).
  by rewrite IH.
Qed.

(** C10.  [f.with_updated_id(s)] has the flow id and frame type of [f] and
    the step id [s], and its context is [None]; a frame whose context is a
    mapping therefore loses it. *)
Theorem with_updated_id_drops_context (f : FlowStackFrame) (s : string) :
  flow_id (with_updated_id f s) = flow_id f ∧
  frame_type (with_updated_id f s) = frame_type f ∧
  step_id (with_updated_id f s) = s ∧
  context (with_updated_id f s) = None ∧
  ∀ fid sid ft (m : gmap string value),
    context (with_updated_id
               {| flow_id := fid; step_id := sid; frame_type := ft;
                  context := Some m |} s)
    ≠ Some m.
Proof. repeat split; done. Qed.

End flow_stack_facts.

(** ** Properties of the flow executor *)

Module flow_executor_facts.
Import flow_executor spec.

Lemma py_insert_below_top {A} (x t : A) (rest : list A) :
  py_insert (-1) x (rest ++ [t]) = rest ++ [x; t].
Proof.
  unfold py_insert. rewrite length_app. simpl.
  replace (Z.max 0 (Z.of_nat (length rest + 1) + -1)) with (Z.of_nat (length rest))
    by lia.
  rewrite Nat2Z.id, take_app_length, drop_app_length. done.
Qed.

Lemma py_pop_top {A} (t : A) (rest : list A) :
  py_pop (rest ++ [t]) = Ok (rest, t).
Proof. unfold py_pop. by rewrite last_snoc, removelast_last. Qed.

Section facts.
Context `{FlowCatalog} `{Collaborators}.

(** Running the executor's primitives. *)
Ltac run :=
  repeat (progress (unfold mbind, M_bind, mret, M_ret, call, raise, get_stack,
                      set_frames, structlog, push, pop, top, is_empty;
                    simpl)).

(** The shortcut of [select_next_step_id]. *)
Lemma select_next_step_id_single_static_eq
    (current : FlowStep) (target : string)
    (ctx : gmap string value) (tracker : Tracker) :
  links (next current) = [StaticFlowLink target] →
  select_next_step_id current ctx tracker = mret (Some target).
Proof. intros Hl. unfold select_next_step_id. by rewrite Hl. Qed.

(** C9.  When the outgoing links of a step are exactly one static link,
    [select_next_step_id] returns its target and evaluates no predicate: the
    result is that target, and the state is left as it was, whatever the
    template engine, the predicate engine, the context and the tracker. *)
Theorem select_next_step_id_single_static
    (current : FlowStep) (target : string)
    (condition_evaluation_context : gmap string value) (tracker : Tracker)
    (st : State) :
  links (next current) = [StaticFlowLink target] →
  select_next_step_id current condition_evaluation_context tracker st
  = (Ok (Some target), st).
Proof. intros Hl. unfold select_next_step_id. by rewrite Hl. Qed.

(** C4.  On a stack with a top frame, running a [LinkFlowStep] inserts a user
    flow frame of type link for the linked flow directly below the top
    frame, which stays on top, and returns [ContinueFlowWithNextStep]. *)
Theorem run_step_link_pushes_below_top
    (i : string) (n : FlowLinks) (link : string) (flow : option Flow)
    (tracker : Tracker) (available_actions : list string) (flows : FlowsList)
    (rest : list DialogueStackFrame) (top_frame : DialogueStackFrame)
    (lg : list LogRecord) :
  run_step {| id := i; next := n; kind := LinkFlowStep link |} flow tracker
    available_actions flows
    {| stack := {| frames := rest ++ [top_frame] |}; log := lg |}
  = (Ok (ContinueFlowWithNextStep []),
     {| stack := {| frames := rest ++ [UserFlowStackFrame link START_STEP LINK;
                                       top_frame] |};
        log := lg ++ [ {| level := DEBUG; event := "flow.step.run.link" |} ] |}).
Proof. unfold run_step. run. by rewrite py_insert_below_top. Qed.

(** C8.  Running an [ActionFlowStep] raises a [FlowException] exactly when
    the step has no action name.  When it has one, and the name renders to
    a name that is not among the available actions, the step returns
    [ContinueFlowWithNextStep] without events; when the rendered name is
    available, it returns [PauseFlowReturnPrediction] with that name and the
    score 1.0.  The stack is left as it was in both cases. *)
Theorem run_step_action
    (i : string) (n : FlowLinks) (action : option string) (flow : option Flow)
    (tracker : Tracker) (available_actions : list string) (flows : FlowsList)
    (st : State) :
  let step := {| id := i; next := n; kind := ActionFlowStep action |} in
  let r := run_step step flow tracker available_actions flows st in
  ((∃ message, r.1 = Raise (FlowException message))
   ↔ action = None ∨ action = Some EmptyString) ∧
  (∀ a action_name,
     action = Some a → a ≠ EmptyString →
     render_template_variables a
       {[ "context" := VDict (current_context (stack st)) ]} = Ok action_name →
     (action_name ∉ available_actions →
      r = (Ok (ContinueFlowWithNextStep []),
           {| stack := stack st;
              log := log st ++ [ {| level := WARNING;
                                    event := "flow.step.run.action.unknown" |} ] |}))
     ∧
     (action_name ∈ available_actions →
      r = (Ok (PauseFlowReturnPrediction
                 {| action_name := Some action_name; score := 1.0%float;
                    metadata := None; events := None |}),
           {| stack := stack st;
              log := log st ++ [ {| level := DEBUG;
                                    event := "flow.step.run.action" |} ] |}))).
Proof.
  intros step r. subst r step. unfold run_step, truthy. simpl. split.
  - destruct action as [a|]; [|by split; eauto].
    destruct (String.eqb_spec a EmptyString) as [->|Hne]; simpl.
    + split; eauto.
    + split.
      * intros [m Hm]. exfalso. revert Hm. run.
        destruct (render_template_variables a _); simpl; [|done].
        by case_bool_decide.
      * intros [?|[= ?]]; done.
  - intros a action_name -> Hne Hr.
    destruct (String.eqb_spec a EmptyString) as [?|_]; [done|]. run.
    rewrite Hr. simpl. split; intros Hin; case_bool_decide; done.
Qed.

(** What the two end-of-flow triggers do to the stack. *)
Lemma trigger_pattern_continue_interrupted_frames
    (current_frame : DialogueStackFrame) (flows : FlowsList) (st : State) :
  ∃ extra,
    trigger_pattern_continue_interrupted current_frame flows st
    = (Ok (), {| stack := {| frames := frames (stack st) ++ extra |};
                 log := log st |}) ∧
    (extra = [] ∨
     frames (stack st) ≠ [] ∧
     ∃ previous_flow_name,
       extra = [ContinueInterruptedPatternFlowStackFrame previous_flow_name]).
Proof.
  destruct st as [[fs] lg].
  assert (∃ extra, extra = @nil DialogueStackFrame ∧
            (@mret M _ _ () : M unit) {| stack := {| frames := fs |}; log := lg |}
            = (Ok (), {| stack := {| frames := fs ++ extra |}; log := lg |}))
    as (e0 & He0 & Hret).
  { exists []. by rewrite app_nil_r. }
  unfold trigger_pattern_continue_interrupted. run.
  destruct (top_user_flow_frame {| frames := fs |}) as [prev|] eqn:Hprev.
  - assert (fs ≠ []) as Hne by (intros ->; by cbv in Hprev).
    destruct current_frame as [f s t| |];
      try (exists e0; split; [exact Hret|by left]).
    destruct (frame_step prev flows) as [step|];
      [|exists e0; split; [exact Hret|by left]].
    destruct (frame_flow prev flows) as [flow|];
      [|exists e0; split; [exact Hret|by left]].
    destruct (bool_decide (t = INTERRUPT) && negb (is_step_end_of_flow step));
      [|exists e0; split; [exact Hret|by left]].
    eexists. split; [reflexivity|]. right. eauto.
  - destruct current_frame; exists e0; (split; [exact Hret|by left]).
Qed.

Lemma trigger_pattern_completed_frames
    (current_frame : DialogueStackFrame) (flows : FlowsList) (st : State) :
  trigger_pattern_completed current_frame flows st
  = (Ok (),
     {| stack :=
          {| frames :=
               match frames (stack st) with
               | [] =>
                   if is_user_flow_frame current_frame
                   then [CompletedPatternFlowStackFrame
                           (readable_name <$> frame_flow current_frame flows)]
                   else []
               | fs => fs
               end |};
        log := log st |}).
Proof.
  destruct st as [[fs] lg]. unfold trigger_pattern_completed. run.
  destruct fs as [|f fs]; simpl; [|done].
  destruct (is_user_flow_frame current_frame); simpl; [|done].
  by destruct (frame_flow current_frame flows).
Qed.

(** C5.  Running an [EndFlowStep] pops the top frame.  When the stack is then
    empty and the popped frame is a user flow frame, the stack ends up
    holding one completed pattern frame, which carries the readable name of
    the ended flow, or [None] when the catalogue does not have the flow.
    When the stack is not empty after the pop, or the popped frame is no
    user flow frame, no completed pattern frame is pushed: the stack is what
    the pop left, possibly with one continue-interrupted pattern frame on
    top. *)
Theorem run_step_end_completed
    (i : string) (n : FlowLinks) (flow : option Flow)
    (tracker : Tracker) (available_actions : list string) (flows : FlowsList)
    (rest : list DialogueStackFrame) (frame : DialogueStackFrame)
    (lg : list LogRecord) :
  let r := run_step {| id := i; next := n; kind := EndFlowStep |} flow tracker
             available_actions flows
             {| stack := {| frames := rest ++ [frame] |}; log := lg |} in
  r.1 = match flow with
        | Some flow => Ok (ContinueFlowWithNextStep (reset_scoped_slots flow tracker))
        | None => Raise (PyError AttributeError)
        end ∧
  (rest = [] → is_user_flow_frame frame = true →
   frames (stack r.2)
   = [CompletedPatternFlowStackFrame
        (readable_name <$> frame_flow frame flows)]) ∧
  (rest ≠ [] ∨ is_user_flow_frame frame = false →
   frames (stack r.2) = rest ∨
   ∃ previous_flow_name,
     frames (stack r.2)
     = rest ++ [ContinueInterruptedPatternFlowStackFrame previous_flow_name]).
Proof.
  intros r. subst r. unfold run_step. run. rewrite py_pop_top. run.
  destruct (trigger_pattern_continue_interrupted_frames frame flows
              {| stack := {| frames := rest |};
                 log := lg ++ [ {| level := DEBUG;
                                   event := "flow.step.run.flow_end" |} ] |})
    as (extra & -> & Hextra).
  simpl. rewrite trigger_pattern_completed_frames. simpl.
  split; [by destruct flow|].
  split.
  - intros -> Huser. rewrite Huser.
    destruct Hextra as [->|[? _]]; [|done]. by destruct flow.
  - intros Hcase.
    assert (match rest ++ extra with
            | [] =>
                if is_user_flow_frame frame
                then [CompletedPatternFlowStackFrame
                        (readable_name <$> frame_flow frame flows)]
                else []
            | d :: l => d :: l
            end = rest ++ extra) as ->.
    { destruct (rest ++ extra) as [|x l] eqn:Happ; [|done].
      apply app_eq_nil in Happ as [Hr He].
      destruct Hcase as [?|Hu]; [done|]. by rewrite Hu. }
    destruct Hextra as [->|[_ [nm ->]]].
    + left. rewrite app_nil_r. by destruct flow.
    + right. exists nm. by destruct flow.
Qed.

(** An error of the template engine leaves [is_condition_satisfied] as it
    is: the template is rendered before the [try] block is entered. *)
Lemma is_condition_satisfied_render_error
    (predicate : string) (context : gmap string value) (tracker : Tracker)
    (st : State) (e : py_exn) :
  render_template_variables predicate {[ "context" := VDict context ]} = Raise e →
  is_condition_satisfied predicate context tracker st = (Raise (PyError e), st).
Proof. intros Hr. unfold is_condition_satisfied. run. by rewrite Hr. Qed.

(** C2, as amended.  Once the predicate text has been rendered and the
    predicate built, [is_condition_satisfied] does not raise: it returns what
    the evaluation against the merged document returns, and an error of the
    evaluation is logged and yields false. *)
Theorem is_condition_satisfied_catches_evaluation
    (predicate : string) (context : gmap string value) (tracker : Tracker)
    (st : State) (rendered : string) (p : Predicate) :
  render_template_variables predicate {[ "context" := VDict context ]}
    = Ok rendered →
  Predicate_init rendered = Ok p →
  is_condition_satisfied predicate context tracker st
  = match
      Predicate_evaluate p
        (current_slot_values tracker ∪ {[ "context" := VDict context ]})
    with
    | Ok b => (Ok b, st)
    | Raise _ =>
        (Ok false,
         {| stack := stack st;
            log := log st ++ [ {| level := ERROR;
                                  event := "flow.predicate.error" |} ] |})
    end.
Proof.
  intros Hr Hp. unfold is_condition_satisfied. run. rewrite Hr. simpl.
  rewrite Hp. simpl. by destruct (Predicate_evaluate p _).
Qed.

(** The first loop of [select_next_step_id] over links none of which is
    satisfied. *)
Lemma select_if_link_none_satisfied
    (ctx : gmap string value) (tracker : Tracker) (ls : list FlowLink)
    (st st' : State) :
  none_satisfied ctx tracker ls st st' →
  select_if_link ls ctx tracker st = (Ok None, st').
Proof.
  induction 1 as [st|l ls st st' Hl _ IH|target c ls st st1 st2 Hc He _ IH].
  - done.
  - destruct l as [t|t [c|]|t]; simpl in *; try done.
    subst c. done.
  - simpl. destruct (String.eqb_spec c EmptyString) as [?|_]; [done|]. simpl.
    run. rewrite He. done.
Qed.

(** The first loop stops at the first satisfied condition. *)
Lemma select_if_link_first_match
    (ctx : gmap string value) (tracker : Tracker)
    (pre post : list FlowLink) (target c : string) (st st1 st2 : State) :
  none_satisfied ctx tracker pre st st1 →
  c ≠ EmptyString →
  is_condition_satisfied c ctx tracker st1 = (Ok true, st2) →
  select_if_link (pre ++ IfFlowLink target (Some c) :: post) ctx tracker st
  = (Ok (Some target), st2).
Proof.
  intros Hpre Hc Ht.
  induction Hpre as [st|l ls st st' Hl _ IH|t' c' ls st sta stb Hc' He _ IH].
  - simpl. destruct (String.eqb_spec c EmptyString) as [?|_]; [done|]. simpl.
    run. by rewrite Ht.
  - specialize (IH Ht).
    destruct l as [t|t [c'|]|t]; simpl in *; try done.
    subst c'. done.
  - specialize (IH Ht). simpl.
    destruct (String.eqb_spec c' EmptyString) as [?|_]; [done|]. simpl.
    run. rewrite He. done.
Qed.

(** [select_next_step_id] past its shortcut. *)
Lemma select_next_step_id_no_shortcut
    (current : FlowStep) (ctx : gmap string value) (tracker : Tracker) :
  (∀ target, links (next current) ≠ [StaticFlowLink target]) →
  select_next_step_id current ctx tracker
  = (r ← select_if_link (links (next current)) ctx tracker;
     match r with
     | Some target => mret (Some target)
     | None =>
         match List.find is_else_link (links (next current)) with
         | Some link => mret (Some (link_target link))
         | None =>
             if negb (bool_decide (links (next current) = [])) then
               _ ← structlog ERROR "flow.link.failed_to_select_branch";
               mret None
             else if String.eqb (id current) END_STEP then mret None
             else if is_link_step current then mret (Some END_STEP)
             else
               _ ← structlog ERROR "flow.step.failed_to_select_next_step";
               mret None
         end
     end).
Proof.
  intros Hns. unfold select_next_step_id.
  destruct (links (next current)) as [|[t|t c|t] [|l ls]]; try done.
  by destruct (Hns t).
Qed.

Lemma find_else_link (pre post : list FlowLink) (target : string) :
  Forall (λ l, is_else_link l = false) pre →
  List.find is_else_link (pre ++ ElseFlowLink target :: post)
  = Some (ElseFlowLink target).
Proof.
  induction 1 as [|l pre Hl _ IH]; [done|]. simpl. by rewrite Hl.
Qed.

(** C3.  [select_next_step_id] evaluates the conditional links of a step in
    the order they are declared in.  It returns the target of the first one
    whose condition is satisfied, all conditions before it having evaluated
    to false, whatever the links after it are; and when no condition is
    satisfied, it returns the target of the first [ElseFlowLink], if the
    step has one. *)
Theorem select_next_step_id_first_match
    (current : FlowStep) (ctx : gmap string value) (tracker : Tracker) :
  (∀ pre post target c st st1 st2,
     links (next current) = pre ++ IfFlowLink target (Some c) :: post →
     none_satisfied ctx tracker pre st st1 →
     c ≠ EmptyString →
     is_condition_satisfied c ctx tracker st1 = (Ok true, st2) →
     select_next_step_id current ctx tracker st = (Ok (Some target), st2)) ∧
  (∀ pre post target st st1,
     links (next current) = pre ++ ElseFlowLink target :: post →
     Forall (λ l, is_else_link l = false) pre →
     none_satisfied ctx tracker (links (next current)) st st1 →
     select_next_step_id current ctx tracker st = (Ok (Some target), st1)).
Proof.
  split.
  - intros pre post target c st st1 st2 Hl Hpre Hc Ht.
    rewrite select_next_step_id_no_shortcut.
    + rewrite Hl. run.
      by rewrite (select_if_link_first_match _ _ _ _ _ _ _ _ _ Hpre Hc Ht).
    + intros t. rewrite Hl. by destruct pre as [|? [|? ?]].
  - intros pre post target st st1 Hl Hpre Hnone.
    rewrite select_next_step_id_no_shortcut.
    + run. rewrite (select_if_link_none_satisfied _ _ _ _ _ Hnone).
      rewrite Hl, (find_else_link _ _ _ Hpre). done.
    + intros t. rewrite Hl. by destruct pre as [|? [|? ?]].
Qed.

(** The first loop of [reset_scoped_slots]: every event it appends resets
    the slot of a collect step that asks for the reset, and every slot of a
    collect step that opts out ends up in [not_resettable_slot_names]. *)
Lemma scan_collect_steps_spec
    (steps : list FlowStep) (tracker : Tracker) (events : list Event)
    (names : gset string) (events' : list Event) (names' : gset string) :
  scan_collect_steps steps tracker events names = (events', names') →
  (∀ e, e ∈ events' →
        e ∈ events ∨
        ∃ step c u r a,
          step ∈ steps ∧
          kind step = CollectInformationFlowStep c u r a true ∧
          e = _reset_slot c tracker) ∧
  (∀ step c u r a,
     step ∈ steps →
     kind step = CollectInformationFlowStep c u r a false →
     c ∈ names') ∧
  names ⊆ names'.
Proof.
  revert events names.
  induction steps as [|step steps IH]; intros events names Hscan; simpl in Hscan.
  { injection Hscan as <- <-. split_and!; [by left| |done].
    intros ????? Hin. by apply elem_of_nil in Hin. }
  assert (∀ events0 names0,
            scan_collect_steps steps tracker events0 names0 = (events', names') →
            (∀ e, e ∈ events0 →
                  e ∈ events ∨
                  ∃ c u r a,
                    kind step = CollectInformationFlowStep c u r a true ∧
                    e = _reset_slot c tracker) →
            (∀ c u r a,
               kind step = CollectInformationFlowStep c u r a false →
               c ∈ names0) →
            names ⊆ names0 →
            (∀ e, e ∈ events' →
                  e ∈ events ∨
                  ∃ step0 c u r a,
                    step0 ∈ step :: steps ∧
                    kind step0 = CollectInformationFlowStep c u r a true ∧
                    e = _reset_slot c tracker) ∧
            (∀ step0 c u r a,
               step0 ∈ step :: steps →
               kind step0 = CollectInformationFlowStep c u r a false →
               c ∈ names') ∧
            names ⊆ names') as Hstep.
  { intros events0 names0 (Hev & Hnames & Hsub)%IH Hev0 Hnames0 Hsub0.
    split_and!.
    - intros e [He|(s' & c & u & r & a & Hin & Hk & ->)]%Hev.
      + apply Hev0 in He as [He|(c & u & r & a & Hk & ->)]; [by left|].
        right. exists step, c, u, r, a. split_and!; [left|done|done].
      + right. exists s', c, u, r, a. split_and!; [by right|done|done].
    - intros s' c u r a [->|Hin]%elem_of_cons Hk; [|by eauto].
      apply Hsub. eauto.
    - set_solver. }
  destruct (kind step) as [c u r a [|]| | | | | | |] eqn:Hk;
    apply Hstep in Hscan; try done; set_solver.
Qed.

(** The comprehension of [reset_scoped_slots] keeps no slot that opted
    out. *)
Lemma resettable_set_slots_spec
    (steps : list FlowStep) (names : gset string) (x : string) :
  x ∈ resettable_set_slots steps names → x ∉ names.
Proof.
  unfold resettable_set_slots.
  intros (step & Hx & _)%list_elem_of_bind.
  destruct (kind step); try by apply elem_of_nil in Hx.
  apply list_elem_of_bind in Hx as (slot & Hx & _).
  case_bool_decide; [|by apply elem_of_nil in Hx].
  by apply list_elem_of_singleton in Hx as ->.
Qed.

(** C6, as amended.  In a flow with a collect step for [x] that opts out of
    the reset at the end of the flow, and with no collect step for [x] that
    asks for it, [reset_scoped_slots] emits no event for [x], whatever the
    set-slots steps of the flow write: the opt-out takes precedence over the
    reset of the slots written by set-slots steps. *)
Theorem reset_scoped_slots_opt_out
    (flow : Flow) (tracker : Tracker) (x : string) :
  collects flow x false →
  ¬ collects flow x true →
  ∀ v, SlotSet x v ∉ reset_scoped_slots flow tracker.
Proof.
  intros (step & u & r & a & Hin & Hk) Hnot v. unfold reset_scoped_slots.
  destruct (scan_collect_steps (steps flow) tracker [] ∅)
    as [events names] eqn:Hscan.
  apply scan_collect_steps_spec in Hscan as (Hev & Hnames & _).
  intros [He|He]%elem_of_app.
  - apply Hev in He as [He|(s' & c' & u' & r' & a' & Hin' & Hk' & He)];
      [by apply elem_of_nil in He|].
    injection He as -> _. apply Hnot. by exists s', u', r', a'.
  - apply list_elem_of_fmap in He as (name & He & Hname).
    injection He as -> _.
    apply resettable_set_slots_spec in Hname. apply Hname. eauto.
Qed.

(** *** The circuit breaker *)

Lemma no_breaker_ret {A} (a : A) : no_breaker (mret a).
Proof. intros st e st' [=]. Qed.

Lemma no_breaker_bind {A B} (m : M A) (k : A → M B) :
  no_breaker m → (∀ a, no_breaker (k a)) → no_breaker (m ≫= k).
Proof.
  intros Hm Hk st e st'. unfold mbind, M_bind.
  destruct (m st) as [[a|e0] st0] eqn:Hr.
  - apply Hk.
  - intros [= <- <-]. by eapply Hm.
Qed.

Lemma no_breaker_raise {A} (e : exn) :
  is_breaker e = false → no_breaker (raise (A:=A) e).
Proof. by intros He st e' st' [= <- _]. Qed.

Lemma no_breaker_call {A} (r : result py_exn A) : no_breaker (call r).
Proof. destruct r; [apply no_breaker_ret|by apply no_breaker_raise]. Qed.

Lemma no_breaker_get_stack : no_breaker get_stack.
Proof. intros st e st' [=]. Qed.

Lemma no_breaker_set_frames fs : no_breaker (set_frames fs).
Proof. intros st e st' [=]. Qed.

Lemma no_breaker_structlog lvl ev : no_breaker (structlog lvl ev).
Proof. intros st e st' [=]. Qed.

(** Splits a computation along its binds, matches and conditionals down to
    the primitives above and to the lemmas in the hint database. *)
Create HintDb breaker.

Ltac no_breaker :=
  repeat first
    [ apply no_breaker_ret
    | apply no_breaker_get_stack
    | apply no_breaker_set_frames
    | apply no_breaker_structlog
    | apply no_breaker_call
    | apply no_breaker_raise; reflexivity
    | solve [auto with breaker]
    | apply no_breaker_bind; [|intros ?]
    | match goal with
      | |- no_breaker (match ?x with _ => _ end) => destruct x
      | |- no_breaker (let '(_, _) := ?x in _) => destruct x
      end ].

Lemma no_breaker_push frame index : no_breaker (push frame index).
Proof. unfold push. no_breaker. Qed.

Lemma no_breaker_pop : no_breaker pop.
Proof. unfold pop. no_breaker. Qed.

Lemma no_breaker_top : no_breaker top.
Proof. unfold top. no_breaker. Qed.

Lemma no_breaker_is_empty : no_breaker is_empty.
Proof. unfold is_empty. no_breaker. Qed.

Hint Resolve no_breaker_push no_breaker_pop no_breaker_top
  no_breaker_is_empty : breaker.

Lemma no_breaker_is_condition_satisfied predicate context tracker :
  no_breaker (is_condition_satisfied predicate context tracker).
Proof. unfold is_condition_satisfied. no_breaker. Qed.

Hint Resolve no_breaker_is_condition_satisfied : breaker.

Lemma no_breaker_select_if_link ls ctx tracker :
  no_breaker (select_if_link ls ctx tracker).
Proof. induction ls as [|l ls IH]; simpl; no_breaker. Qed.

Hint Resolve no_breaker_select_if_link : breaker.

Lemma no_breaker_select_next_step_id current ctx tracker :
  no_breaker (select_next_step_id current ctx tracker).
Proof. unfold select_next_step_id. no_breaker. Qed.

Hint Resolve no_breaker_select_next_step_id : breaker.

Lemma no_breaker_select_next_step current_step current_flow tracker :
  no_breaker (select_next_step current_step current_flow tracker).
Proof. unfold select_next_step. no_breaker. Qed.

Lemma no_breaker_advance_top_flow_on_stack updated_id :
  no_breaker (advance_top_flow_on_stack updated_id).
Proof. unfold advance_top_flow_on_stack. no_breaker. Qed.

Lemma no_breaker_trigger_pattern_continue_interrupted current_frame flows :
  no_breaker (trigger_pattern_continue_interrupted current_frame flows).
Proof. unfold trigger_pattern_continue_interrupted. no_breaker. Qed.

Lemma no_breaker_trigger_pattern_completed current_frame flows :
  no_breaker (trigger_pattern_completed current_frame flows).
Proof. unfold trigger_pattern_completed. no_breaker. Qed.

Lemma no_breaker_trigger_pattern_ask_collect_information c r u :
  no_breaker (trigger_pattern_ask_collect_information c r u).
Proof. unfold trigger_pattern_ask_collect_information. no_breaker. Qed.

Hint Resolve no_breaker_select_next_step no_breaker_advance_top_flow_on_stack
  no_breaker_trigger_pattern_continue_interrupted
  no_breaker_trigger_pattern_completed
  no_breaker_trigger_pattern_ask_collect_information : breaker.

Lemma no_breaker_run_step step flow tracker available_actions flows :
  no_breaker (run_step step flow tracker available_actions flows).
Proof. unfold run_step. no_breaker. Qed.

Hint Resolve no_breaker_run_step : breaker.

(** Only the loop of [select_next_action] itself trips the breaker: its body
    never does. *)
Lemma no_breaker_loop_body tracker step_result available_actions flows :
  no_breaker (loop_body tracker step_result available_actions flows).
Proof. unfold loop_body. no_breaker. Qed.

(** With [k] iterations left before the ceiling and more fuel than that,
    the loop does not depend on its fuel and does not run out of it. *)
Lemma loop_fuel available_actions flows (k : nat) :
  ∀ fuel n tracker step_result st,
    n = MAX_NUMBER_OF_STEPS - Z.of_nat k → (k < fuel)%nat →
    loop fuel n tracker step_result available_actions flows st
    = loop (S k) n tracker step_result available_actions flows st ∧
    ∀ st', loop fuel n tracker step_result available_actions flows st
           ≠ (Ok None, st').
Proof.
  unfold MAX_NUMBER_OF_STEPS.
  induction k as [|k IH]; intros fuel n tracker step_result st Hn Hfuel;
    (destruct fuel as [|fuel]; [lia|]); simpl;
    (destruct (is_continue step_result); [|done]).
  - replace (n + 1 >? MAX_NUMBER_OF_STEPS) with true
      by (unfold MAX_NUMBER_OF_STEPS; lia). done.
  - replace (n + 1 >? MAX_NUMBER_OF_STEPS) with false
      by (unfold MAX_NUMBER_OF_STEPS; lia).
    unfold mbind, M_bind.
    destruct (loop_body tracker step_result available_actions flows st)
      as [[[tracker' step_result']|e] st1]; [|done].
    apply IH; lia.
Qed.

(** The loop trips the breaker exactly after as many completed iterations as
    were left before the ceiling, each of them continuing. *)
Lemma loop_breaker available_actions flows (k : nat) :
  ∀ fuel n tracker step_result st stk m st',
    n = MAX_NUMBER_OF_STEPS - Z.of_nat k → (k < fuel)%nat →
    loop fuel n tracker step_result available_actions flows st
    = (Raise (FlowCircuitBreakerTrippedException stk m), st')
    ↔ m = MAX_NUMBER_OF_STEPS + 1 ∧ stk = stack st' ∧
      ∃ tracker' step_result',
        iterations available_actions flows k (tracker, step_result, st)
          (tracker', step_result', st') ∧
        is_continue step_result' = true.
Proof.
  induction k as [|k IH]; intros fuel n tracker step_result st stk m st' Hn Hfuel;
    (destruct fuel as [|fuel]; [lia|]); simpl.
  - replace (n + 1 >? MAX_NUMBER_OF_STEPS) with true
      by (unfold MAX_NUMBER_OF_STEPS in *; lia).
    replace (n + 1) with (MAX_NUMBER_OF_STEPS + 1) by lia. split.
    + destruct (is_continue step_result) eqn:Hc; [|done].
      intros [= <- <- <-]. split_and!; [done..|].
      exists tracker, step_result. split; [constructor|done].
    + intros (-> & -> & tracker' & step_result' & Hit & Hc).
      inversion Hit; subst. by rewrite Hc.
  - replace (n + 1 >? MAX_NUMBER_OF_STEPS) with false
      by (unfold MAX_NUMBER_OF_STEPS in *; lia).
    split.
    + destruct (is_continue step_result) eqn:Hc; [|done].
      unfold mbind, M_bind.
      destruct (loop_body tracker step_result available_actions flows st)
        as [[[tracker1 step_result1]|e] st1] eqn:Hbody.
      * simpl. intros Hloop. apply IH in Hloop
          as (-> & -> & tracker' & step_result' & Hit & Hc'); [|lia..].
        split_and!; [done..|]. exists tracker', step_result'.
        split; [by econstructor|done].
      * intros [= -> <-]. by apply no_breaker_loop_body in Hbody.
    + intros (-> & -> & tracker' & step_result' & Hit & Hc').
      inversion Hit as [|? ? ? ? tracker1 step_result1 st1 ? Hc Hbody Hit'];
        subst.
      rewrite Hc. unfold mbind, M_bind. rewrite Hbody. simpl.
      apply IH; [lia..|]. split_and!; [done..|]. eauto.
Qed.

(** What [select_next_action] raises is what its loop raises. *)
Lemma select_next_action_raise fuel tracker available_actions flows st e st' :
  select_next_action fuel tracker available_actions flows st = (Raise e, st')
  ↔ loop fuel 0 tracker (ContinueFlowWithNextStep []) available_actions flows st
    = (Raise e, st').
Proof.
  unfold select_next_action, mbind, M_bind.
  destruct (loop fuel 0 tracker (ContinueFlowWithNextStep []) available_actions
              flows st) as [[[[tracker' [evs|p]]|]|e0] st0];
    unfold structlog, mret, M_ret; simpl; split; congruence.
Qed.

(** One iteration on a step that routes back to itself and continues in
    place: the loop goes on, with the same frame on top of the stack. *)
Lemma loop_body_self_loop
    tracker step_result available_actions flows
    fid a ft flow step rest lg :
  flow_by_id flows fid = Some flow →
  step_by_id flow (Some a) = Some step →
  id step = a →
  links (next step) = [StaticFlowLink a] →
  continues_in_place available_actions (kind step) →
  ∃ tracker' evs rest' lg',
    loop_body tracker step_result available_actions flows
      {| stack := {| frames := rest ++ [UserFlowStackFrame fid a ft] |};
         log := lg |}
    = (Ok (tracker', ContinueFlowWithNextStep evs),
       {| stack := {| frames := rest' ++ [UserFlowStackFrame fid a ft] |};
          log := lg' |}).
Proof.
  intros Hflow Hstep Hid Hlinks Hkind.
  unfold loop_body. run. rewrite last_snoc. run.
  unfold frame_step, frame_flow. simpl. rewrite Hflow. simpl. rewrite Hstep.
  unfold select_next_step. run.
  rewrite (select_next_step_id_single_static_eq step a) by done. simpl.
  rewrite Hstep. unfold advance_top_flow_on_stack. run.
  rewrite last_snoc. simpl. run. rewrite removelast_last, Hid.
  unfold run_step.
  destruct (kind step) as [| [a'|] | | | | | |]; try done; run.
  - destruct Hkind as [Hne Hrender].
    destruct (Hrender {| frames := rest ++ [UserFlowStackFrame fid a ft] |})
      as (action_name & Hr & Hnot).
    unfold truthy. destruct (String.eqb_spec a' EmptyString) as [?|_]; [done|]. run.
    rewrite Hr. run. rewrite bool_decide_eq_false_2 by done. run.
    by do 4 eexists.
  - rewrite py_insert_below_top. do 2 eexists.
    exists (rest ++ [UserFlowStackFrame link START_STEP LINK]). eexists.
    rewrite <- (app_assoc rest [_] [_]). reflexivity.
  - by do 4 eexists.
  - by do 4 eexists.
Qed.

(** Any number of such iterations can be completed. *)
Lemma iterations_self_loop
    available_actions flows fid a ft flow step (k : nat) :
  flow_by_id flows fid = Some flow →
  step_by_id flow (Some a) = Some step →
  id step = a →
  links (next step) = [StaticFlowLink a] →
  continues_in_place available_actions (kind step) →
  ∀ tracker evs rest lg,
  ∃ tracker' evs' rest' lg',
    iterations available_actions flows k
      (tracker, ContinueFlowWithNextStep evs,
       {| stack := {| frames := rest ++ [UserFlowStackFrame fid a ft] |};
          log := lg |})
      (tracker', ContinueFlowWithNextStep evs',
       {| stack := {| frames := rest' ++ [UserFlowStackFrame fid a ft] |};
          log := lg' |}).
Proof.
  intros Hflow Hstep Hid Hlinks Hkind.
  induction k as [|k IH]; intros tracker evs rest lg.
  - exists tracker, evs, rest, lg. constructor.
  - destruct (loop_body_self_loop tracker (ContinueFlowWithNextStep evs)
                available_actions flows fid a ft flow step rest lg)
      as (tracker1 & evs1 & rest1 & lg1 & Hbody); [done..|].
    destruct (IH tracker1 evs1 rest1 lg1) as (tracker' & evs' & rest' & lg' & Hit).
    exists tracker', evs', rest', lg'. by econstructor.
Qed.

(** C1, as amended.  The loop of [select_next_action] counts its iterations
    from 0 and trips the circuit breaker exactly when the counter exceeds
    250: the turn ends in a [FlowCircuitBreakerTrippedException] if and only
    if 250 iterations were completed, each of them continuing, and the
    exception then carries the stack and the counter 251.  251 units of fuel
    always suffice, so that the loop never goes on forever.  In particular a
    flow whose current step routes back to itself trips the breaker when the
    step continues in place: a branch, set-slots or link step, or an action
    step whose rendered name is not available. *)
Theorem select_next_action_circuit_breaker
    (fuel : nat) (tracker : Tracker) (available_actions : list string)
    (flows : FlowsList) (st : State) :
  (251 ≤ fuel)%nat →
  (select_next_action fuel tracker available_actions flows st
   = select_next_action 251 tracker available_actions flows st ∧
   ∀ st', select_next_action fuel tracker available_actions flows st
          ≠ (Ok None, st')) ∧
  (∀ stk n st',
     select_next_action fuel tracker available_actions flows st
     = (Raise (FlowCircuitBreakerTrippedException stk n), st')
     ↔ n = 251 ∧ stk = stack st' ∧
       ∃ tracker' step_result',
         iterations available_actions flows 250
           (tracker, ContinueFlowWithNextStep [], st)
           (tracker', step_result', st') ∧
         is_continue step_result' = true) ∧
  (∀ rest fid a ft flow step,
     frames (stack st) = rest ++ [UserFlowStackFrame fid a ft] →
     flow_by_id flows fid = Some flow →
     step_by_id flow (Some a) = Some step →
     id step = a →
     links (next step) = [StaticFlowLink a] →
     continues_in_place available_actions (kind step) →
     ∃ stk st',
       select_next_action fuel tracker available_actions flows st
       = (Raise (FlowCircuitBreakerTrippedException stk 251), st') ∧
       last (frames stk) = Some (UserFlowStackFrame fid a ft)).
Proof.
  intros Hfuel.
  assert (∀ stk n st',
     select_next_action fuel tracker available_actions flows st
     = (Raise (FlowCircuitBreakerTrippedException stk n), st')
     ↔ n = 251 ∧ stk = stack st' ∧
       ∃ tracker' step_result',
         iterations available_actions flows 250
           (tracker, ContinueFlowWithNextStep [], st)
           (tracker', step_result', st') ∧
         is_continue step_result' = true) as Hbreaker.
  { intros stk n st'. rewrite select_next_action_raise.
    by apply (loop_breaker available_actions flows 250); [|lia]. }
  split_and!; [..|done|].
  - unfold select_next_action.
    destruct (loop_fuel available_actions flows 250 fuel 0 tracker
                (ContinueFlowWithNextStep []) st) as [Heq _]; [done|lia|].
    unfold mbind, M_bind. by rewrite Heq.
  - intros st'. unfold select_next_action.
    destruct (loop_fuel available_actions flows 250 fuel 0 tracker
                (ContinueFlowWithNextStep []) st) as [_ Hnone]; [done|lia|].
    unfold mbind, M_bind.
    destruct (loop fuel 0 tracker (ContinueFlowWithNextStep []) available_actions
                flows st) as [[[[tracker' [evs|p]]|]|e0] st0] eqn:Hloop;
      unfold structlog, mret, M_ret; simpl; first [congruence | by destruct (Hnone st0)].
  - intros rest fid a ft flow step Hst Hflow Hstep Hid Hlinks Hkind.
    destruct st as [[fs] lg]. simpl in Hst. subst fs.
    destruct (iterations_self_loop available_actions flows fid a ft flow step
                250 Hflow Hstep Hid Hlinks Hkind tracker [] rest lg)
      as (tracker' & evs' & rest' & lg' & Hit).
    eexists _, _. split.
    + apply Hbreaker. split_and!; [done|reflexivity|]. eauto.
    + simpl. by rewrite last_snoc.
Qed.

End facts.
End flow_executor_facts.

(** ** The properties at work on the examples *)

Module flow_executor_examples.
Import flow_executor spec examples flow_executor_facts.

#[local] Existing Instance catalog.
#[local] Existing Instance collaborators.

Example select_next_action_spinning :
  (select_next_action 300 empty_tracker [] (flows_list [spinning])
     (state [UserFlowStackFrame "spin" "a" REGULAR])).1
  = Raise (FlowCircuitBreakerTrippedException
             {| frames := [UserFlowStackFrame "spin" "a" REGULAR] |} 251).
Proof. vm_compute. reflexivity. Qed.

Lemma select_next_action_self_loop_pauses :
  flow_by_id (flows_list [greeting]) "greet" = Some greeting ∧
  step_by_id greeting (Some "a")
  = Some (step "a" [StaticFlowLink "a"] (ActionFlowStep (Some "utter_greet"))) ∧
  (select_next_action 251 empty_tracker ["utter_greet"] (flows_list [greeting])
     (state [UserFlowStackFrame "greet" "a" REGULAR])).1
  = Ok (Some {| action_name := Some "utter_greet"; score := 1.0%float;
                metadata := None; events := Some [] |}).
Proof. split_and!; vm_compute; reflexivity. Qed.

Lemma select_next_action_circuit_breaker_witness :
  (251 ≤ 251)%nat ∧
  ∃ stk st',
    select_next_action 251 empty_tracker [] (flows_list [spinning])
      (state [UserFlowStackFrame "spin" "a" REGULAR])
    = (Raise (FlowCircuitBreakerTrippedException stk 251), st') ∧
    last (frames stk) = Some (UserFlowStackFrame "spin" "a" REGULAR).
Proof.
  split; [lia|].
  destruct (select_next_action_circuit_breaker 251 empty_tracker [] (flows_list [spinning])
              (state [UserFlowStackFrame "spin" "a" REGULAR]))
    as (_ & _ & Hself); [lia|].
  apply (Hself [] "spin" "a" REGULAR spinning
           (step "a" [StaticFlowLink "a"] BranchFlowStep));
    first [reflexivity | exact I].
Defined.

Lemma is_condition_satisfied_raises_on_render_error :
  is_condition_satisfied "{{" ∅ empty_tracker (state [])
  = (Raise (PyError (LibraryError "jinja2.exceptions.TemplateSyntaxError")),
     state []).
Proof. reflexivity. Qed.

Lemma is_condition_satisfied_catches_evaluation_witness :
  render_template_variables "nonsense" {[ "context" := VDict ∅ ]} = Ok "nonsense" ∧
  Predicate_init "nonsense" = Ok "nonsense" ∧
  is_condition_satisfied "nonsense" ∅ empty_tracker (state [])
  = (Ok false,
     {| stack := {| frames := [] |};
        log := [ {| level := ERROR; event := "flow.predicate.error" |} ] |}).
Proof.
  split; [reflexivity|]. split; [reflexivity|].
  exact (is_condition_satisfied_catches_evaluation "nonsense" ∅ empty_tracker
           (state []) "nonsense" "nonsense" eq_refl eq_refl).
Defined.

Lemma select_next_step_id_first_match_witness :
  select_next_step_id three_way ∅ empty_tracker (state [])
  = (Ok (Some "second"), state []).
Proof.
  apply (proj1 (select_next_step_id_first_match three_way ∅ empty_tracker)
           [IfFlowLink "first" (Some "false")]
           [IfFlowLink "third" (Some "true"); ElseFlowLink "otherwise"]
           "second" "true" (state []) (state []) (state [])).
  - reflexivity.
  - apply none_satisfied_false with (st1 := state []);
      [discriminate|reflexivity|constructor].
  - discriminate.
  - reflexivity.
Defined.

Lemma run_step_end_completed_witness :
  frames (stack (run_step (step "END" [] EndFlowStep) (Some kept) empty_tracker
                   [] (flows_list [kept])
                   (state [UserFlowStackFrame "kept" "END" REGULAR])).2)
  = [CompletedPatternFlowStackFrame (Some "kept")].
Proof.
  apply (proj1 (proj2 (run_step_end_completed "END" {| links := [] |} (Some kept)
                         empty_tracker [] (flows_list [kept]) []
                         (UserFlowStackFrame "kept" "END" REGULAR) [])));
    reflexivity.
Defined.

Lemma reset_scoped_slots_twice_collected :
  collects twice_collected "x" false ∧
  sets twice_collected "x" ∧
  SlotSet "x" VNone ∈ reset_scoped_slots twice_collected empty_tracker.
Proof.
  split_and!.
  - exists (step "c2" [StaticFlowLink "s"]
              (CollectInformationFlowStep "x" "utter_ask_x" [] true false)),
      "utter_ask_x", [], true.
    split; [|reflexivity]. simpl. set_solver.
  - exists (step "s" [StaticFlowLink "END"]
              (SetSlotsFlowStep [ {| key := "x"; slot_value := VInt 1 |} ])),
      [ {| key := "x"; slot_value := VInt 1 |} ],
      {| key := "x"; slot_value := VInt 1 |}.
    split_and!; [simpl; set_solver|reflexivity|set_solver|reflexivity].
  - assert (reset_scoped_slots twice_collected empty_tracker = [SlotSet "x" VNone])
      as -> by (vm_compute; reflexivity).
    set_solver.
Qed.

Lemma reset_scoped_slots_opt_out_witness :
  collects kept "x" false ∧
  ¬ collects kept "x" true ∧
  ∀ v, SlotSet "x" v ∉ reset_scoped_slots kept empty_tracker.
Proof.
  assert (collects kept "x" false) as Hfalse.
  { exists (step "c" [StaticFlowLink "s"]
              (CollectInformationFlowStep "x" "utter_ask_x" [] true false)),
      "utter_ask_x", [], true.
    split; [left|reflexivity]. }
  assert (¬ collects kept "x" true) as Htrue.
  { intros (s & u & r & a & Hin & Hk). simpl in Hin.
    apply elem_of_cons in Hin as [->|Hin]; [discriminate Hk|].
    apply elem_of_cons in Hin as [->|Hin]; [discriminate Hk|].
    by apply elem_of_nil in Hin. }
  split; [exact Hfalse|]. split; [exact Htrue|].
  exact (reset_scoped_slots_opt_out kept empty_tracker "x" Hfalse Htrue).
Defined.

Lemma run_step_action_witness :
  run_step (step "greet" [StaticFlowLink "END"] (ActionFlowStep (Some "utter_greet")))
    None empty_tracker ["utter_greet"] (flows_list []) (state [])
  = (Ok (PauseFlowReturnPrediction
           {| action_name := Some "utter_greet"; score := 1.0%float;
              metadata := None; events := None |}),
     {| stack := {| frames := [] |};
        log := [ {| level := DEBUG; event := "flow.step.run.action" |} ] |}).
Proof.
  apply (proj2 (run_step_action "greet" {| links := [StaticFlowLink "END"] |}
                  (Some "utter_greet") None empty_tracker ["utter_greet"]
                  (flows_list []) (state []))
           "utter_greet" "utter_greet");
    [reflexivity|discriminate|reflexivity|left].
Defined.

Lemma select_next_step_id_single_static_witness :
  links (next (step "a" [StaticFlowLink "a"] BranchFlowStep))
  = [StaticFlowLink "a"] ∧
  select_next_step_id (step "a" [StaticFlowLink "a"] BranchFlowStep) ∅
    empty_tracker (state [])
  = (Ok (Some "a"), state []).
Proof.
  split; [reflexivity|].
  exact (select_next_step_id_single_static
           (step "a" [StaticFlowLink "a"] BranchFlowStep) "a" ∅ empty_tracker
           (state []) eq_refl).
Defined.

End flow_executor_examples.

(** ** Further properties of the flow stack *)

Module flow_stack_more.
Import flow_stack.

(** X1.  [StackFrameType.from_str] is the inverse of [StackFrameType.value]:
    a text is read as a frame type exactly when it is the value of that
    type, any other text raises [NotImplementedError], and [None] is read as
    the regular type. *)
Theorem from_str_spec (s : string) :
  (∀ t, from_str (VStr s) = Ok t ↔ s = frame_type_value t) ∧
  ((∀ t, s ≠ frame_type_value t) →
   from_str (VStr s) = Raise NotImplementedError) ∧
  from_str VNone = Ok REGULAR.
Proof.
  unfold from_str, is_value_of. simpl.
  repeat match goal with
         | |- context [String.eqb s ?v] =>
             destruct (String.eqb_spec s v) as [->|?]
         end;
    (split; [intros t; destruct t; simpl; split; congruence|]);
    (split; [|done]); intros Hno;
    first [done
          | by destruct (Hno INTERRUPT) | by destruct (Hno LINK)
          | by destruct (Hno REGULAR) | by destruct (Hno CORRECTION)
          | by destruct (Hno DOCSEARCH) | by destruct (Hno INTENTLESS)
          | by destruct (Hno REMARK) ].
Qed.



(** X3.  A record needs no ["frame_type"] entry, and is then loaded as a
    regular frame; but it needs a ["context"] entry, although the context of
    a frame defaults to [None]: without one, loading raises [KeyError]. *)
Theorem frame_from_dict_optional_entries
    (data : gmap string value) (f s : string) :
  data !! "flow_id" = Some (VStr f) →
  data !! "step_id" = Some (VStr s) →
  data !! "frame_type" = None →
  (∀ c, data !! "context" = Some (of_optional_dict c) →
        frame_from_dict data
        = Ok {| flow_id := f; step_id := s; frame_type := REGULAR;
                context := c |}) ∧
  (data !! "context" = None →
   frame_from_dict data = Raise (KeyError "context")).
Proof.
  intros Hf Hs Ht. unfold frame_from_dict, getitem, dict_get.
  rewrite Hf, Hs, Ht. simpl. split.
  - intros c ->. by destruct c.
  - by intros ->.
Qed.

(** X4.  Popping after a push at the top gives back the frame pushed and the
    stack as it was. *)
Theorem pop_push (S : FlowStack) (frame : FlowStackFrame) :
  pop (push S frame None) = Ok (S, frame).
Proof.
  destruct S as [fs]. unfold pop, push, py_pop. simpl.
  by rewrite last_snoc, removelast_last.
Qed.

(** X5.  [pop] raises [IndexError] on exactly the stacks that are empty,
    which are exactly the stacks [top] answers [None] on. *)
Theorem pop_raises_iff_empty (S : FlowStack) :
  (pop S = Raise IndexError ↔ is_empty S = true) ∧
  (top S = None ↔ is_empty S = true) ∧
  (is_empty S = true ↔ frames S = []).
Proof.
  destruct S as [fs]. unfold pop, top, py_pop, is_empty. simpl.
  destruct fs as [|x fs _] using rev_ind.
  - simpl. split_and!; split; done.
  - rewrite last_snoc. simpl.
    rewrite bool_decide_eq_false_2 by (rewrite length_app; simpl; lia).
    split_and!; split; try done. by intros [_ [=]]%app_eq_nil.
Qed.

(** X6.  [update] never raises: it replaces the top frame by the given frame
    and leaves the frames below as they are; on an empty stack the frame
    becomes the only one. *)
Theorem update_replaces_top (S : FlowStack) (frame : FlowStackFrame) :
  update S frame = Ok {| frames := removelast (frames S) ++ [frame] |} ∧
  ∀ S', update S frame = Ok S' →
        top S' = Some frame ∧
        length (frames S') = Nat.max 1 (length (frames S)).
Proof.
  destruct S as [fs]. unfold update, pop, push, top, py_pop, is_empty. simpl.
  destruct fs as [|x fs _] using rev_ind; simpl.
  - split; [done|]. by intros S' [= <-].
  - rewrite bool_decide_eq_false_2 by (rewrite length_app; simpl; lia).
    simpl. rewrite last_snoc. simpl. rewrite removelast_last.
    split; [done|]. intros S' [= <-]. simpl.
    rewrite bool_decide_eq_false_2 by (rewrite length_app; simpl; lia).
    rewrite last_snoc, !length_app. simpl. split; [done|lia].
Qed.

(** X7.  [advance_top_flow] moves the cursor of the top frame and nothing
    else: the flow id, the frame type and the context of the top frame and
    all frames below stay as they are (unlike [with_updated_id], it keeps the
    context).  An empty stack is left empty. *)
Theorem advance_top_flow_moves_cursor_only
    (rest : list FlowStackFrame) (t : FlowStackFrame) (updated_id : string) :
  advance_top_flow {| frames := rest ++ [t] |} updated_id
  = {| frames := rest ++ [ {| flow_id := flow_id t; step_id := updated_id;
                              frame_type := frame_type t;
                              context := context t |} ] |} ∧
  advance_top_flow {| frames := [] |} updated_id = {| frames := [] |}.
Proof.
  unfold advance_top_flow, top, is_empty. simpl. split; [|done].
  rewrite bool_decide_eq_false_2 by (rewrite length_app; simpl; lia).
  by rewrite last_snoc, removelast_last.
Qed.



Section with_catalog.
Context `{FlowCatalog}.

(** X9.  [topmost_user_frame] passes over the frames that are not of a user
    flow type (remark, correction, docsearch, intentless) and answers with
    the flow and step of the topmost frame of type interrupt, regular or
    link; with no such frame it answers [(None, None)], and when the
    catalogue does not have the flow of that frame it raises
    [AttributeError]. *)
Theorem topmost_user_frame_skips_other_frames
    (flows : FlowsList) (below above : list FlowStackFrame)
    (frame : FlowStackFrame) :
  Forall (λ f, frame_type f ∉ STACK_FRAME_TYPES_WITH_USER_FLOWS) above →
  topmost_user_frame {| frames := above |} flows = Ok (None, None) ∧
  (frame_type frame ∈ STACK_FRAME_TYPES_WITH_USER_FLOWS →
   topmost_user_frame {| frames := below ++ frame :: above |} flows
   = match flow_by_id flows (flow_id frame) with
     | Some flow => Ok (step_by_id flow (Some (step_id frame)), Some flow)
     | None => Raise AttributeError
     end).
Proof.
  intros Habove. unfold topmost_user_frame. simpl.
  assert (∀ l,
            List.find
              (λ f, bool_decide (frame_type f ∈ STACK_FRAME_TYPES_WITH_USER_FLOWS))
              (reverse above ++ l)
            = List.find
                (λ f, bool_decide (frame_type f ∈ STACK_FRAME_TYPES_WITH_USER_FLOWS))
                l) as Hskip.
  { induction Habove as [|f above Hf _ IH]; intros l; [done|].
    rewrite reverse_cons, <- app_assoc, IH. simpl.
    by rewrite bool_decide_eq_false_2. }
  split.
  - specialize (Hskip []). rewrite app_nil_r in Hskip. by rewrite Hskip.
  - intros Hframe. rewrite reverse_app, reverse_cons, <- app_assoc, Hskip.
    simpl. by rewrite bool_decide_eq_true_2.
Qed.

End with_catalog.

Lemma topmost_user_frame_skips_other_frames_witness :
  Forall (λ f, frame_type f ∉ STACK_FRAME_TYPES_WITH_USER_FLOWS)
    [examples_more.remark_frame] ∧
  @topmost_user_frame examples.catalog
    {| frames := [examples_more.regular_frame; examples_more.remark_frame] |}
    (examples.flows_list [examples.kept])
  = Ok (Some (examples.step "c" [StaticFlowLink "s"]
                (CollectInformationFlowStep "x" "utter_ask_x" [] true false)),
        Some examples.kept).
Proof.
  assert (Forall (λ f, frame_type f ∉ STACK_FRAME_TYPES_WITH_USER_FLOWS)
            [examples_more.remark_frame]) as Hrem.
  { constructor; [|constructor]. simpl. unfold STACK_FRAME_TYPES_WITH_USER_FLOWS.
    intros Hin. repeat (apply elem_of_cons in Hin as [Hin|Hin]; [discriminate|]).
    by apply elem_of_nil in Hin. }
  split; [exact Hrem|].
  apply (proj2 (@topmost_user_frame_skips_other_frames examples.catalog
                  (examples.flows_list [examples.kept]) []
                  [examples_more.remark_frame] examples_more.regular_frame Hrem)).
  simpl. unfold STACK_FRAME_TYPES_WITH_USER_FLOWS. set_solver.
Defined.

Lemma frame_from_dict_optional_entries_witness :
  examples_more.bare_record !! "flow_id" = Some (VStr "kept") ∧
  examples_more.bare_record !! "step_id" = Some (VStr "c") ∧
  examples_more.bare_record !! "frame_type" = None ∧
  frame_from_dict examples_more.bare_record = Raise (KeyError "context").
Proof.
  assert (examples_more.bare_record !! "flow_id" = Some (VStr "kept")) as Hf
    by (vm_compute; reflexivity).
  assert (examples_more.bare_record !! "step_id" = Some (VStr "c")) as Hs
    by (vm_compute; reflexivity).
  assert (examples_more.bare_record !! "frame_type" = None) as Ht
    by (vm_compute; reflexivity).
  split; [exact Hf|]. split; [exact Hs|]. split; [exact Ht|].
  apply (proj2 (frame_from_dict_optional_entries examples_more.bare_record
                  "kept" "c" Hf Hs Ht)).
  vm_compute. reflexivity.
Defined.

End flow_stack_more.

(** ** Further properties of the flow executor *)

Module flow_executor_more.
Import flow_executor spec spec_more flow_executor_facts.

Section more.
Context `{FlowCatalog} `{Collaborators}.

Ltac run :=
  repeat (progress (unfold mbind, M_bind, mret, M_ret, call, raise, get_stack,
                      set_frames, structlog, push, pop, top, is_empty;
                    simpl)).

Lemma find_else_link_none (ls : list FlowLink) :
  Forall (λ l, is_else_link l = false) ls → List.find is_else_link ls = None.
Proof. induction 1 as [|l ls Hl _ IH]; [done|]. simpl. by rewrite Hl. Qed.

(** X10.  A step that has links, none of which resolves (every condition
    evaluates to false and there is no else link), has no next step:
    [select_next_step_id] logs the failure to select a branch and returns
    [None].  Static links do not count once there is more than one link. *)
Theorem select_next_step_id_unresolved
    (current : FlowStep) (ctx : gmap string value) (tracker : Tracker)
    (st st1 : State) :
  links (next current) ≠ [] →
  (∀ target, links (next current) ≠ [StaticFlowLink target]) →
  none_satisfied ctx tracker (links (next current)) st st1 →
  Forall (λ l, is_else_link l = false) (links (next current)) →
  select_next_step_id current ctx tracker st
  = (Ok None,
     {| stack := stack st1;
        log := log st1 ++ [ {| level := ERROR;
                               event := "flow.link.failed_to_select_branch" |} ] |}).
Proof.
  intros Hne Hns Hnone Helse.
  rewrite select_next_step_id_no_shortcut by done. run.
  rewrite (select_if_link_none_satisfied _ _ _ _ _ Hnone).
  rewrite (find_else_link_none _ Helse).
  by rewrite bool_decide_eq_false_2.
Qed.

(** X11.  A step without links: at the end step there is no next step, and
    nothing is logged; a link step continues at the end step; any other
    step has no next step, and the failure is logged. *)
Theorem select_next_step_id_no_links
    (current : FlowStep) (ctx : gmap string value) (tracker : Tracker)
    (st : State) :
  links (next current) = [] →
  let r := select_next_step_id current ctx tracker st in
  (id current = END_STEP → r = (Ok None, st)) ∧
  (id current ≠ END_STEP → is_link_step current = true →
   r = (Ok (Some END_STEP), st)) ∧
  (id current ≠ END_STEP → is_link_step current = false →
   r = (Ok None,
        {| stack := stack st;
           log := log st ++ [ {| level := ERROR;
                                 event := "flow.step.failed_to_select_next_step" |} ] |})).
Proof.
  intros Hl r. subst r. unfold select_next_step_id. rewrite Hl. run.
  destruct (String.eqb_spec (id current) END_STEP) as [?|Hne].
  - split_and!; done.
  - split_and!; [done|by intros _ ->|by intros _ ->].
Qed.

Lemma only_logs_ret {A} (a : A) : only_logs (mret a).
Proof. intros st. split; [done|]. exists []. by rewrite app_nil_r. Qed.

Lemma only_logs_bind {A B} (m : M A) (k : A → M B) :
  only_logs m → (∀ a, only_logs (k a)) → only_logs (m ≫= k).
Proof.
  intros Hm Hk st. unfold mbind, M_bind.
  destruct (Hm st) as [Hs [l Hl]].
  destruct (m st) as [[a|e] st0]; simpl in *.
  - destruct (Hk a st0) as [Hs' [l' Hl']]. split; [congruence|].
    exists (l ++ l'). rewrite Hl', Hl. by rewrite app_assoc.
  - split; [done|by exists l].
Qed.

Lemma only_logs_raise {A} (e : exn) : only_logs (raise (A:=A) e).
Proof. intros st. split; [done|]. exists []. by rewrite app_nil_r. Qed.

Lemma only_logs_call {A} (r : result py_exn A) : only_logs (call r).
Proof. destruct r; [apply only_logs_ret|apply only_logs_raise]. Qed.

Lemma only_logs_structlog lvl ev : only_logs (structlog lvl ev).
Proof. intros st. split; [done|]. by eexists. Qed.

Lemma only_logs_get_stack : only_logs get_stack.
Proof. intros st. split; [done|]. exists []. by rewrite app_nil_r. Qed.

Ltac only_logs :=
  repeat first
    [ apply only_logs_ret
    | apply only_logs_get_stack
    | apply only_logs_structlog
    | apply only_logs_call
    | apply only_logs_raise
    | assumption
    | apply only_logs_bind; [|intros ?]
    | match goal with
      | |- only_logs (match ?x with _ => _ end) => destruct x
      end ].

Lemma only_logs_is_condition_satisfied predicate context tracker :
  only_logs (is_condition_satisfied predicate context tracker).
Proof. unfold is_condition_satisfied. only_logs. Qed.

Lemma only_logs_select_if_link ls ctx tracker :
  only_logs (select_if_link ls ctx tracker).
Proof.
  induction ls as [|l ls IH]; simpl; [only_logs|].
  pose proof (only_logs_is_condition_satisfied) as Hc.
  destruct l as [t|t [c|]|t]; try done.
  destruct (negb (String.eqb c EmptyString)); [|done].
  apply only_logs_bind; [apply Hc|]. intros [|]; [apply only_logs_ret|done].
Qed.

(** X12.  Selecting the next step id never touches the dialogue stack: what
    ever [select_next_step_id] returns or raises, the stack is as it was and
    the log has only grown. *)
Theorem select_next_step_id_keeps_stack
    (current : FlowStep) (ctx : gmap string value) (tracker : Tracker)
    (st : State) :
  stack (select_next_step_id current ctx tracker st).2 = stack st ∧
  ∃ l, log (select_next_step_id current ctx tracker st).2 = log st ++ l.
Proof.
  revert st. change (only_logs (select_next_step_id current ctx tracker)).
  unfold select_next_step_id.
  pose proof (only_logs_select_if_link (links (next current)) ctx tracker) as Hif.
  destruct (links (next current)) as [|[t|t c|t] [|l ls]]; only_logs.
Qed.

(** X13.  A collect step resets its slot before asking exactly when the
    tracker has the slot, the slot has been set and the step asks before
    filling; the reset is to the initial value of the slot.  Otherwise the
    step creates no event. *)
Theorem events_for_collect_step_spec
    (collect : string) (ask_before_filling : bool) (tracker : Tracker) :
  (∀ e, e ∈ events_for_collect_step collect ask_before_filling tracker
        ↔ ∃ slot, tracker_slot tracker collect = Some slot ∧
                  has_been_set slot = true ∧ ask_before_filling = true ∧
                  e = SlotSet collect (initial_value slot)) ∧
  (length (events_for_collect_step collect ask_before_filling tracker) ≤ 1)%nat.
Proof.
  unfold events_for_collect_step.
  destruct (tracker_slot tracker collect) as [slot|].
  - destruct (has_been_set slot) eqn:Hset, ask_before_filling; simpl;
      (split; [|lia]); intros e; split;
      try (by intros ?%elem_of_nil);
      try (by intros (slot' & [= <-] & ? & ? & _); congruence).
    + intros ->%list_elem_of_singleton. by exists slot.
    + intros (slot' & [= <-] & _ & _ & ->). by left.
  - simpl. split; [|lia]. intros e. split; [by intros ?%elem_of_nil|].
    by intros (slot' & ? & _).
Qed.

(** X14.  Running a collect step pushes, on top of the stack, the pattern
    frame that asks for the slot, with the utterance and the rejections of
    the step, and continues with the events of the collect step. *)
Theorem run_step_collect_pushes_pattern
    (i : string) (n : FlowLinks) (collect utter : string)
    (rejections : list SlotRejection) (ask_before_filling reset : bool)
    (flow : option Flow) (tracker : Tracker) (available_actions : list string)
    (flows : FlowsList) (st : State) :
  run_step {| id := i; next := n;
              kind := CollectInformationFlowStep collect utter rejections
                        ask_before_filling reset |}
    flow tracker available_actions flows st
  = (Ok (ContinueFlowWithNextStep
           (events_for_collect_step collect ask_before_filling tracker)),
     {| stack :=
          {| frames := frames (stack st) ++
                       [CollectInformationPatternFlowStackFrame collect utter
                          rejections] |};
        log := log st ++ [ {| level := DEBUG; event := "flow.step.run.collect" |} ] |}).
Proof. unfold run_step, trigger_pattern_ask_collect_information. by run. Qed.

(** X15.  Only collect, link and end steps touch the dialogue stack: for a
    step of any other kind, whatever [run_step] returns or raises, the stack
    is as it was. *)
Theorem run_step_keeps_stack
    (step : FlowStep) (flow : option Flow) (tracker : Tracker)
    (available_actions : list string) (flows : FlowsList) (st : State) :
  match kind step with
  | CollectInformationFlowStep _ _ _ _ _ | LinkFlowStep _ | EndFlowStep => False
  | _ => True
  end →
  stack (run_step step flow tracker available_actions flows st).2 = stack st.
Proof.
  intros Hkind. unfold run_step.
  destruct (kind step) as [| [a|] | | | | | |]; try done; run.
  destruct (negb (String.eqb a EmptyString)); [|done].
  destruct (render_template_variables a _); [|done]. simpl.
  by case_bool_decide.
Qed.

(** X16.  Running an end step never grows the stack: the top frame is
    popped and at most one pattern frame is pushed in its place.  On an
    empty stack the pop raises [IndexError] and the stack stays empty. *)
Theorem run_step_end_never_grows
    (i : string) (n : FlowLinks) (flow : option Flow) (tracker : Tracker)
    (available_actions : list string) (flows : FlowsList) (st : State) :
  let r := run_step {| id := i; next := n; kind := EndFlowStep |} flow tracker
             available_actions flows st in
  (length (frames (stack r.2)) ≤ length (frames (stack st)))%nat ∧
  (frames (stack st) = [] →
   r.1 = Raise (PyError IndexError) ∧ frames (stack r.2) = []).
Proof.
  intros r. subst r. destruct st as [[fs] lg]. unfold run_step. run.
  destruct fs as [|frame rest _] using rev_ind; [by run|].
  rewrite py_pop_top. run.
  destruct (trigger_pattern_continue_interrupted_frames frame flows
              {| stack := {| frames := rest |};
                 log := lg ++ [ {| level := DEBUG;
                                   event := "flow.step.run.flow_end" |} ] |})
    as (extra & -> & Hextra).
  simpl. rewrite trigger_pattern_completed_frames. simpl.
  split; [|by intros ?%app_eq_nil; destruct_and!].
  rewrite length_app. simpl.
  destruct Hextra as [->|[Hne [nm ->]]].
  - rewrite app_nil_r. destruct rest as [|x rest]; simpl.
    + destruct (is_user_flow_frame frame); destruct flow; simpl; lia.
    + destruct flow; simpl; lia.
  - simpl in Hne. destruct rest as [|x rest]; [done|].
    destruct flow; simpl; rewrite length_app; simpl; lia.
Qed.

(** X17.  [run_step] raises a [FlowException] for exactly two kinds of
    steps: an action step without an action name, and a step of a class it
    does not know. *)
Theorem run_step_flow_exception_iff
    (step : FlowStep) (flow : option Flow) (tracker : Tracker)
    (available_actions : list string) (flows : FlowsList) (st : State) :
  (∃ message,
     (run_step step flow tracker available_actions flows st).1
     = Raise (FlowException message))
  ↔ kind step = ActionFlowStep None ∨
    kind step = ActionFlowStep (Some EmptyString) ∨
    ∃ class_name, kind step = InternalFlowStep class_name.
Proof.
  unfold run_step.
  destruct (kind step) as [c u rj a rs| [a|] |l|slots| |g| |cn] eqn:Hk; run.
  - split; [by intros [m [=]]|]. intros [?|[?|[? ?]]]; done.
  - unfold truthy. destruct (String.eqb_spec a EmptyString) as [->|Hne]; simpl.
    + split; eauto.
    + split.
      * intros [m Hm]. exfalso. revert Hm. run.
        destruct (render_template_variables a _); simpl; [|done].
        by case_bool_decide.
      * intros [?|[[= ?]|[? ?]]]; done.
  - split; eauto.
  - split; [by intros [m [=]]|]. intros [?|[?|[? ?]]]; done.
  - split; [by intros [m [=]]|]. intros [?|[?|[? ?]]]; done.
  - split; [by intros [m [=]]|]. intros [?|[?|[? ?]]]; done.
  - split; [by intros [m [=]]|]. intros [?|[?|[? ?]]]; done.
  - split; [|intros [?|[?|[? ?]]]; done].
    intros [m Hm]. exfalso. revert Hm.
    destruct st as [[fs] lg]. simpl.
    destruct fs as [|frame rest _] using rev_ind; [by run|].
    rewrite py_pop_top. run.
    destruct (trigger_pattern_continue_interrupted_frames frame flows
                {| stack := {| frames := rest |};
                   log := lg ++ [ {| level := DEBUG;
                                     event := "flow.step.run.flow_end" |} ] |})
      as (extra & -> & _).
    simpl. rewrite trigger_pattern_completed_frames. simpl.
    by destruct flow.
  - split; eauto.
Qed.

(** X18.  The pattern to continue an interrupted flow is triggered by the
    end of an interrupting user flow only: for any other frame the stack is
    left as it is.  For an interrupting frame, with the nearest user flow
    frame left on the stack resolved in the catalogue, the pattern frame is
    pushed, carrying the readable name of that flow, unless that flow is at
    its end. *)
Theorem trigger_pattern_continue_interrupted_spec
    (current_frame : DialogueStackFrame) (flows : FlowsList) (st : State) :
  (is_interrupt_frame current_frame = false →
   trigger_pattern_continue_interrupted current_frame flows st = (Ok (), st)) ∧
  (∀ previous step flow,
     is_interrupt_frame current_frame = true →
     top_user_flow_frame (stack st) = Some previous →
     frame_step previous flows = Some step →
     frame_flow previous flows = Some flow →
     trigger_pattern_continue_interrupted current_frame flows st
     = (Ok (),
        if is_step_end_of_flow step then st
        else {| stack :=
                  {| frames :=
                       frames (stack st) ++
                       [ContinueInterruptedPatternFlowStackFrame
                          (readable_name flow)] |};
                log := log st |})).
Proof.
  destruct st as [[fs] lg]. unfold trigger_pattern_continue_interrupted. run.
  split.
  - intros Hno.
    destruct current_frame as [f s [| |]| |]; try done;
      destruct (top_user_flow_frame {| frames := fs |}) as [prev|]; try done;
      destruct (frame_step prev flows), (frame_flow prev flows); done.
  - intros previous step flow Hint Hprev Hstep Hflow.
    destruct current_frame as [f s [| |]| |]; try done.
    rewrite Hprev, Hstep, Hflow. simpl.
    by destruct (is_step_end_of_flow step).
Qed.

(** X19.  [advance_top_flow_on_stack] moves the cursor of the top frame and
    nothing else: the frames below, the flow and the kind of the top frame
    and the log stay as they are, and a top frame that is no flow frame is
    left alone.  An empty stack is left empty. *)
Theorem advance_top_flow_on_stack_moves_cursor_only
    (updated_id : string) (rest : list DialogueStackFrame)
    (t : DialogueStackFrame) (lg : list LogRecord) :
  advance_top_flow_on_stack updated_id
    {| stack := {| frames := rest ++ [t] |}; log := lg |}
  = (Ok (), {| stack := {| frames := rest ++ [with_step_id t updated_id] |};
               log := lg |}) ∧
  frame_flow_id (with_step_id t updated_id) = frame_flow_id t ∧
  (is_base_flow_frame t = true →
   frame_step_id (with_step_id t updated_id) = Some updated_id) ∧
  (is_base_flow_frame t = false → with_step_id t updated_id = t) ∧
  advance_top_flow_on_stack updated_id {| stack := {| frames := [] |}; log := lg |}
  = (Ok (), {| stack := {| frames := [] |}; log := lg |}).
Proof.
  unfold advance_top_flow_on_stack. run. rewrite last_snoc.
  destruct t; simpl; rewrite ?removelast_last; split_and!; done.
Qed.

(** X20.  With no flow frame on top of the stack, be it empty or topped by
    another kind of frame, a turn predicts the listen action with the
    confidence 1.0 and no events, and changes neither the stack nor the
    log. *)
Theorem select_next_action_listens_without_flow
    (fuel : nat) (tracker : Tracker) (available_actions : list string)
    (flows : FlowsList) (st : State) :
  (1 ≤ fuel)%nat →
  match last (frames (stack st)) with
  | Some frame => is_base_flow_frame frame = false
  | None => True
  end →
  select_next_action fuel tracker available_actions flows st
  = (Ok (Some {| action_name := Some ACTION_LISTEN_NAME; score := 1.0%float;
                 metadata := None; events := Some [] |}),
     st).
Proof.
  intros Hfuel Htop. destruct fuel as [|fuel]; [lia|].
  unfold select_next_action. simpl. unfold loop_body. run.
  destruct st as [[fs] lg]. simpl in *.
  destruct (last fs) as [frame|]; [rewrite Htop|];
    run; destruct fuel; simpl; by rewrite drop_all.
Qed.

Lemma returns_ret {A} (P : A → Prop) (a : A) : P a → returns P (mret a).
Proof. by intros HP st a' st' [= <- _]. Qed.

Lemma returns_bind {A B} (P : B → Prop) (m : M A) (k : A → M B) :
  (∀ a, returns P (k a)) → returns P (m ≫= k).
Proof.
  intros Hk st b st'. unfold mbind, M_bind.
  destruct (m st) as [[a|e] st0]; [apply Hk|done].
Qed.

Lemma returns_raise {A} (P : A → Prop) (e : exn) : returns P (raise e).
Proof. by intros st a st'. Qed.

(** When a step pauses, it pauses with a named action. *)
Lemma run_step_pauses_named step flow tracker available_actions flows :
  returns pauses_named (run_step step flow tracker available_actions flows).
Proof.
  unfold run_step.
  destruct (kind step) as [c u rj a rs| [a|] |l|slots| |g| |cn];
    repeat first
      [ apply returns_raise
      | apply returns_ret; first [exact I | by eexists]
      | apply returns_bind; intros ?
      | match goal with
        | |- returns _ (match ?x with _ => _ end) => destruct x
        end ].
Qed.

Lemma loop_body_pauses_named tracker step_result available_actions flows :
  pauses_named step_result →
  returns (λ r, pauses_named r.2)
    (loop_body tracker step_result available_actions flows).
Proof.
  intros Hgood. unfold loop_body.
  apply returns_bind. intros [frame|]; [|by apply returns_ret; eexists].
  destruct (is_base_flow_frame frame); [|by apply returns_ret; eexists].
  apply returns_bind. intros _. apply returns_bind. intros [current_step|];
    [|by apply returns_ret].
  apply returns_bind. intros _.
  intros st r st'. unfold mbind, M_bind.
  destruct (run_step current_step (frame_flow frame flows) tracker
              available_actions flows st) as [[r'|e] st0] eqn:Hrun; [|done].
  intros [= <- _]. simpl. by eapply run_step_pauses_named.
Qed.

Lemma loop_pauses_named available_actions flows (fuel : nat) :
  ∀ n tracker step_result,
    pauses_named step_result →
    returns (λ o, match o with
                  | Some r => ∃ p, r.2 = PauseFlowReturnPrediction p ∧ named p
                  | None => True
                  end)
      (loop fuel n tracker step_result available_actions flows).
Proof.
  induction fuel as [|fuel IH]; intros n tracker step_result Hgood; simpl.
  - destruct step_result as [evs|p]; simpl;
      apply returns_ret; [done|by exists p].
  - destruct step_result as [evs|p]; simpl;
      [|apply returns_ret; by exists p].
    destruct (n + 1 >? MAX_NUMBER_OF_STEPS).
    + apply returns_bind. intros stk. apply returns_raise.
    + intros st o st'. unfold mbind, M_bind.
      destruct (loop_body tracker (ContinueFlowWithNextStep evs)
                  available_actions flows st) as [[r|e] st0] eqn:Hbody; [|done].
      apply IH. by eapply (loop_body_pauses_named _ _ _ _ Hgood).
Qed.

(** X21.  A turn that returns, returns a named action with the confidence
    1.0: the loop is left only by a pause or an exception, so that the
    prediction without action that follows the loop is never returned. *)
Theorem select_next_action_names_action
    (fuel : nat) (tracker : Tracker) (available_actions : list string)
    (flows : FlowsList) (st st' : State) (p : FlowActionPrediction) :
  select_next_action fuel tracker available_actions flows st = (Ok (Some p), st') →
  (∃ name, action_name p = Some name) ∧ score p = 1.0%float ∧
  ∃ evs, events p = Some evs.
Proof.
  unfold select_next_action, mbind, M_bind.
  destruct (loop fuel 0 tracker (ContinueFlowWithNextStep []) available_actions
              flows st) as [[[[tracker' sr]|]|e] st0] eqn:Hloop;
    [|by unfold mret, M_ret|done].
  apply loop_pauses_named in Hloop as (q & Hq & (name & Hname & Hscore)); [|done].
  simpl in Hq. subst sr. unfold mret, M_ret. intros [= <- _]. simpl.
  split_and!; [by exists name|done|by eexists].
Qed.

(** One iteration on a step that has no links and is neither the end step
    nor a link step: the cursor stays where it is. *)
Lemma loop_body_unroutable
    tracker step_result available_actions flows fid a ft flow step rest lg :
  flow_by_id flows fid = Some flow →
  step_by_id flow (Some a) = Some step →
  step_by_id flow None = None →
  links (next step) = [] →
  id step ≠ END_STEP →
  is_link_step step = false →
  ∃ lg',
    loop_body tracker step_result available_actions flows
      {| stack := {| frames := rest ++ [UserFlowStackFrame fid a ft] |};
         log := lg |}
    = (Ok (tracker, step_result),
       {| stack := {| frames := rest ++ [UserFlowStackFrame fid a ft] |};
          log := lg' |}).
Proof.
  intros Hflow Hstep Hnone Hlinks Hid Hlink.
  unfold loop_body. run. rewrite last_snoc. run.
  unfold frame_step, frame_flow. simpl. rewrite Hflow. simpl. rewrite Hstep.
  unfold select_next_step. run.
  unfold select_next_step_id. rewrite Hlinks. run.
  destruct (String.eqb_spec (id step) END_STEP) as [?|_]; [done|].
  rewrite Hlink. run. rewrite Hnone. by eexists.
Qed.

Lemma iterations_unroutable
    available_actions flows fid a ft flow step rest (k : nat) :
  flow_by_id flows fid = Some flow →
  step_by_id flow (Some a) = Some step →
  step_by_id flow None = None →
  links (next step) = [] →
  id step ≠ END_STEP →
  is_link_step step = false →
  ∀ tracker step_result lg,
    is_continue step_result = true →
    ∃ lg',
      iterations available_actions flows k
        (tracker, step_result,
         {| stack := {| frames := rest ++ [UserFlowStackFrame fid a ft] |};
            log := lg |})
        (tracker, step_result,
         {| stack := {| frames := rest ++ [UserFlowStackFrame fid a ft] |};
            log := lg' |}).
Proof.
  intros Hflow Hstep Hnone Hlinks Hid Hlink.
  induction k as [|k IH]; intros tracker step_result lg Hc.
  - exists lg. constructor.
  - destruct (loop_body_unroutable tracker step_result available_actions flows
                fid a ft flow step rest lg) as (lg1 & Hbody); [done..|].
    destruct (IH tracker step_result lg1 Hc) as (lg' & Hit).
    exists lg'. by econstructor.
Qed.

(** X22.  A user flow whose current step cannot be left (it has no links and
    is neither the end step nor a link step) never advances: every
    iteration finds no next step and leaves the cursor where it is, and the
    turn ends in the circuit breaker with the stack it started with. *)
Theorem select_next_action_unroutable_trips
    (fuel : nat) (tracker : Tracker) (available_actions : list string)
    (flows : FlowsList) (st : State)
    (rest : list DialogueStackFrame) (fid a : string) (ft : FlowStackFrameType)
    (flow : Flow) (step : FlowStep) :
  (251 ≤ fuel)%nat →
  frames (stack st) = rest ++ [UserFlowStackFrame fid a ft] →
  flow_by_id flows fid = Some flow →
  step_by_id flow (Some a) = Some step →
  step_by_id flow None = None →
  links (next step) = [] →
  id step ≠ END_STEP →
  is_link_step step = false →
  ∃ st',
    select_next_action fuel tracker available_actions flows st
    = (Raise (FlowCircuitBreakerTrippedException (stack st) 251), st') ∧
    stack st' = stack st.
Proof.
  intros Hfuel Hst Hflow Hstep Hnone Hlinks Hid Hlink.
  destruct st as [[fs] lg]. simpl in Hst. subst fs.
  destruct (iterations_unroutable available_actions flows fid a ft flow step
              rest 250 Hflow Hstep Hnone Hlinks Hid Hlink tracker
              (ContinueFlowWithNextStep []) lg eq_refl) as (lg' & Hit).
  exists {| stack := {| frames := rest ++ [UserFlowStackFrame fid a ft] |};
            log := lg' |}.
  split; [|reflexivity].
  apply select_next_action_raise.
  apply (loop_breaker available_actions flows 250); [done|lia|].
  split_and!; [done|reflexivity|]. eauto.
Qed.

Lemma scan_collect_steps_eq
    (steps : list FlowStep) (tracker : Tracker) (events : list Event)
    (names : gset string) :
  scan_collect_steps steps tracker events names
  = (events ++ collect_resets steps tracker, names ∪ opted_out steps).
Proof.
  revert events names. unfold collect_resets, opted_out.
  induction steps as [|step steps IH]; intros events names; simpl.
  - rewrite app_nil_r. f_equal. set_solver.
  - destruct (kind step) as [c u r a [|]| | | | | | |]; rewrite IH; simpl;
      rewrite <- ?app_assoc; f_equal; set_solver.
Qed.

Lemma elem_of_collect_resets (flow : Flow) (tracker : Tracker) (e : Event) :
  e ∈ collect_resets (steps flow) tracker
  ↔ ∃ x, e = _reset_slot x tracker ∧ collects flow x true.
Proof.
  unfold collect_resets, collects. rewrite list_elem_of_bind. split.
  - intros (step & He & Hin).
    destruct (kind step) as [c u r a [|]| | | | | | |] eqn:Hk;
      try (by apply elem_of_nil in He).
    apply list_elem_of_singleton in He as ->. exists c. split; [done|].
    by exists step, u, r, a.
  - intros (x & -> & step & u & r & a & Hin & Hk). exists step.
    rewrite Hk. split; [by left|done].
Qed.

Lemma elem_of_opted_out (flow : Flow) (x : string) :
  x ∈ opted_out (steps flow) ↔ collects flow x false.
Proof.
  unfold opted_out, collects. rewrite elem_of_list_to_set, list_elem_of_bind.
  split.
  - intros (step & Hx & Hin).
    destruct (kind step) as [c u r a [|]| | | | | | |] eqn:Hk;
      try (by apply elem_of_nil in Hx).
    apply list_elem_of_singleton in Hx as ->. by exists step, u, r, a.
  - intros (step & u & r & a & Hin & Hk). exists step.
    rewrite Hk. split; [by left|done].
Qed.

Lemma elem_of_resettable_set_slots
    (flow : Flow) (names : gset string) (x : string) :
  x ∈ resettable_set_slots (steps flow) names ↔ sets flow x ∧ x ∉ names.
Proof.
  unfold resettable_set_slots, sets. rewrite list_elem_of_bind. split.
  - intros (step & Hx & Hin).
    destruct (kind step) as [| | |slots| | | |] eqn:Hk;
      try (by apply elem_of_nil in Hx).
    apply list_elem_of_bind in Hx as (slot & Hx & Hslot).
    case_bool_decide; [|by apply elem_of_nil in Hx].
    apply list_elem_of_singleton in Hx as ->.
    split; [|done]. by exists step, slots, slot.
  - intros [(step & slots & slot & Hin & Hk & Hslot & <-) Hnot].
    exists step. rewrite Hk. split; [|done].
    apply list_elem_of_bind. exists slot. split; [|done].
    rewrite bool_decide_eq_true_2 by done. by left.
Qed.

(** X23.  The events of [reset_scoped_slots] are exactly the resets, to the
    initial value the tracker has for the slot, of the slots of the collect
    steps that reset after the flow ends, and of the slots written by
    set-slots steps for which no collect step opts out. *)
Theorem reset_scoped_slots_events
    (flow : Flow) (tracker : Tracker) (e : Event) :
  e ∈ reset_scoped_slots flow tracker
  ↔ ∃ x, e = _reset_slot x tracker ∧
         (collects flow x true ∨ (sets flow x ∧ ¬ collects flow x false)).
Proof.
  unfold reset_scoped_slots. rewrite scan_collect_steps_eq. simpl.
  rewrite elem_of_app, elem_of_collect_resets, list_elem_of_fmap.
  split.
  - intros [(x & -> & Hc)|(x & -> & Hx)]; exists x; (split; [done|]).
    + by left.
    + apply elem_of_resettable_set_slots in Hx as [Hsets Hnot]. right.
      split; [done|]. intros Hout%elem_of_opted_out. set_solver.
  - intros (x & -> & [Hc|[Hsets Hnot]]).
    + left. by exists x.
    + right. exists x. split; [done|].
      apply elem_of_resettable_set_slots. split; [done|].
      rewrite <- elem_of_opted_out in Hnot. set_solver.
Qed.

(** X24.  A turn that finds an action step next, with a name that renders to
    an available action, pauses in its first iteration with that action and
    the confidence 1.0, and leaves the cursor of the top frame at the action
    step; the frames below are as they were. *)
Theorem select_next_action_pauses_at_action
    (fuel : nat) (tracker : Tracker) (available_actions : list string)
    (flows : FlowsList) (st : State)
    (rest : list DialogueStackFrame) (fid cur nxt : string)
    (ft : FlowStackFrameType) (flow : Flow) (current step : FlowStep)
    (a action_name : string) :
  (1 ≤ fuel)%nat →
  frames (stack st) = rest ++ [UserFlowStackFrame fid cur ft] →
  flow_by_id flows fid = Some flow →
  step_by_id flow (Some cur) = Some current →
  links (next current) = [StaticFlowLink nxt] →
  step_by_id flow (Some nxt) = Some step →
  kind step = ActionFlowStep (Some a) →
  a ≠ EmptyString →
  render_template_variables a
    {[ "context" :=
         VDict (current_context
                  {| frames := rest ++ [UserFlowStackFrame fid (id step) ft] |}) ]}
  = Ok action_name →
  action_name ∈ available_actions →
  ∃ evs st',
    select_next_action fuel tracker available_actions flows st
    = (Ok (Some {| action_name := Some action_name; score := 1.0%float;
                   metadata := None; events := Some evs |}),
       st') ∧
    frames (stack st') = rest ++ [UserFlowStackFrame fid (id step) ft].
Proof.
  intros Hfuel Hst Hflow Hcur Hlinks Hnxt Hkind Hne Hrender Hin.
  destruct st as [[fs] lg]. simpl in Hst. subst fs.
  destruct fuel as [|fuel]; [lia|].
  unfold select_next_action. simpl. unfold loop_body. run.
  rewrite last_snoc. run.
  unfold frame_step, frame_flow. simpl. rewrite Hflow. simpl. rewrite Hcur.
  unfold select_next_step. run.
  rewrite (select_next_step_id_single_static_eq current nxt) by done. simpl.
  rewrite Hnxt. unfold advance_top_flow_on_stack. run.
  rewrite last_snoc. simpl. run. rewrite removelast_last.
  unfold run_step. rewrite Hkind. unfold truthy.
  destruct (String.eqb_spec a EmptyString) as [?|_]; [done|]. run.
  rewrite Hrender. run. rewrite bool_decide_eq_true_2 by done. run.
  destruct fuel; simpl; by do 2 eexists.
Qed.

(** X25.  In the document a condition is evaluated on, the slot values take
    precedence: every slot of the tracker is an entry of the document, and
    the evaluation context is the entry ["context"] only when no slot has
    that name.  The result is what the predicate engine finds on that
    document, an error counting as false. *)
Theorem is_condition_satisfied_document
    (predicate : string) (context : gmap string value) (tracker : Tracker)
    (st : State) (rendered : string) (p : Predicate) :
  render_template_variables predicate {[ "context" := VDict context ]}
    = Ok rendered →
  Predicate_init rendered = Ok p →
  ∃ document : gmap string value,
    (∀ k v, current_slot_values tracker !! k = Some v → document !! k = Some v) ∧
    (current_slot_values tracker !! "context" = None →
     document !! "context" = Some (VDict context)) ∧
    (∀ k, k ≠ "context" → current_slot_values tracker !! k = None →
          document !! k = None) ∧
    (is_condition_satisfied predicate context tracker st).1
    = Ok (match Predicate_evaluate p document with
          | Ok b => b
          | Raise _ => false
          end).
Proof.
  intros Hr Hp.
  exists (current_slot_values tracker ∪ {[ "context" := VDict context ]}).
  split_and!.
  - intros k v Hk. by apply lookup_union_Some_l.
  - intros Hk. rewrite lookup_union_r by done. by rewrite lookup_singleton_eq.
  - intros k Hne Hk. rewrite lookup_union_r by done.
    by rewrite lookup_singleton_ne.
  - unfold is_condition_satisfied. run. rewrite Hr. simpl. rewrite Hp. simpl.
    by destruct (Predicate_evaluate p _).
Qed.

End more.
End flow_executor_more.

(** ** The further properties at work on the examples *)

Module flow_executor_more_examples.
Import flow_executor spec spec_more examples examples_more flow_executor_more.

#[local] Existing Instance catalog.
#[local] Existing Instance collaborators.

Lemma select_next_step_id_unresolved_witness :
  links (next two_way) ≠ [] ∧
  (∀ target, links (next two_way) ≠ [StaticFlowLink target]) ∧
  none_satisfied ∅ empty_tracker (links (next two_way)) (state []) (state []) ∧
  Forall (λ l, is_else_link l = false) (links (next two_way)) ∧
  select_next_step_id two_way ∅ empty_tracker (state [])
  = (Ok None,
     {| stack := {| frames := [] |};
        log := [ {| level := ERROR;
                    event := "flow.link.failed_to_select_branch" |} ] |}).
Proof.
  assert (links (next two_way) ≠ []) as H1 by done.
  assert (∀ target, links (next two_way) ≠ [StaticFlowLink target]) as H2 by done.
  assert (none_satisfied ∅ empty_tracker (links (next two_way)) (state [])
            (state [])) as H3.
  { apply none_satisfied_false with (st1 := state []);
      [discriminate|reflexivity|].
    apply none_satisfied_false with (st1 := state []);
      [discriminate|reflexivity|constructor]. }
  assert (Forall (λ l, is_else_link l = false) (links (next two_way))) as H4
    by (repeat constructor).
  split; [exact H1|]. split; [exact H2|]. split; [exact H3|]. split; [exact H4|].
  exact (select_next_step_id_unresolved two_way ∅ empty_tracker (state [])
           (state []) H1 H2 H3 H4).
Defined.

Lemma select_next_step_id_no_links_witness :
  links (next (step "a" [] BranchFlowStep)) = [] ∧
  select_next_step_id (step "a" [] BranchFlowStep) ∅ empty_tracker (state [])
  = (Ok None,
     {| stack := {| frames := [] |};
        log := [ {| level := ERROR;
                    event := "flow.step.failed_to_select_next_step" |} ] |}).
Proof.
  split; [reflexivity|].
  apply (proj2 (proj2 (select_next_step_id_no_links (step "a" [] BranchFlowStep)
                         ∅ empty_tracker (state []) eq_refl)));
    [discriminate|reflexivity].
Defined.

Lemma run_step_keeps_stack_witness :
  stack (run_step (step "a" [] BranchFlowStep) None empty_tracker []
           (flows_list [])
           (state [UserFlowStackFrame "stuck" "a" REGULAR])).2
  = {| frames := [UserFlowStackFrame "stuck" "a" REGULAR] |}.
Proof.
  exact (run_step_keeps_stack (step "a" [] BranchFlowStep) None empty_tracker []
           (flows_list []) (state [UserFlowStackFrame "stuck" "a" REGULAR]) I).
Defined.

Lemma select_next_action_listens_without_flow_witness :
  (1 ≤ 1)%nat ∧
  select_next_action 1 empty_tracker [] (flows_list []) (state [])
  = (Ok (Some {| action_name := Some "action_listen"; score := 1.0%float;
                 metadata := None; events := Some [] |}),
     state []).
Proof.
  split; [lia|].
  apply (select_next_action_listens_without_flow 1 empty_tracker []
           (flows_list []) (state [])); [lia|exact I].
Defined.

Lemma select_next_action_names_action_witness :
  select_next_action 251 empty_tracker ["utter_greet"] (flows_list [greeting_once])
    (state [UserFlowStackFrame "hello" "START" REGULAR])
  = (Ok (Some {| action_name := Some "utter_greet"; score := 1.0%float;
                 metadata := None; events := Some [] |}),
     {| stack := {| frames := [UserFlowStackFrame "hello" "greet" REGULAR] |};
        log := [ {| level := DEBUG; event := "flow.execution.loop" |};
                 {| level := DEBUG; event := "flow.step.next" |};
                 {| level := DEBUG; event := "flow.step.run.action" |} ] |}) ∧
  (∃ name, Some "utter_greet" = Some name).
Proof.
  assert (select_next_action 251 empty_tracker ["utter_greet"]
            (flows_list [greeting_once])
            (state [UserFlowStackFrame "hello" "START" REGULAR])
          = (Ok (Some {| action_name := Some "utter_greet"; score := 1.0%float;
                         metadata := None; events := Some [] |}),
             {| stack := {| frames := [UserFlowStackFrame "hello" "greet" REGULAR] |};
                log := [ {| level := DEBUG; event := "flow.execution.loop" |};
                         {| level := DEBUG; event := "flow.step.next" |};
                         {| level := DEBUG; event := "flow.step.run.action" |} ] |}))
    as Hrun by (vm_compute; reflexivity).
  split; [exact Hrun|].
  exact (proj1 (select_next_action_names_action _ _ _ _ _ _ _ Hrun)).
Defined.

Lemma select_next_action_unroutable_trips_witness :
  ∃ st',
    select_next_action 251 empty_tracker [] (flows_list [stuck])
      (state [UserFlowStackFrame "stuck" "a" REGULAR])
    = (Raise (FlowCircuitBreakerTrippedException
                {| frames := [UserFlowStackFrame "stuck" "a" REGULAR] |} 251),
       st') ∧
    stack st' = {| frames := [UserFlowStackFrame "stuck" "a" REGULAR] |}.
Proof.
  apply (select_next_action_unroutable_trips 251 empty_tracker []
           (flows_list [stuck]) (state [UserFlowStackFrame "stuck" "a" REGULAR])
           [] "stuck" "a" REGULAR stuck (step "a" [] BranchFlowStep));
    first [lia | reflexivity | discriminate].
Defined.

Lemma select_next_action_pauses_at_action_witness :
  ∃ evs st',
    select_next_action 1 empty_tracker ["utter_greet"] (flows_list [greeting_once])
      (state [UserFlowStackFrame "hello" "START" REGULAR])
    = (Ok (Some {| action_name := Some "utter_greet"; score := 1.0%float;
                   metadata := None; events := Some evs |}),
       st') ∧
    frames (stack st') = [UserFlowStackFrame "hello" "greet" REGULAR].
Proof.
  apply (select_next_action_pauses_at_action 1 empty_tracker ["utter_greet"]
           (flows_list [greeting_once])
           (state [UserFlowStackFrame "hello" "START" REGULAR])
           [] "hello" "START" "greet" REGULAR greeting_once
           (step "START" [StaticFlowLink "greet"] BranchFlowStep)
           (step "greet" [StaticFlowLink "END"] (ActionFlowStep (Some "utter_greet")))
           "utter_greet" "utter_greet");
    first [lia | reflexivity | discriminate | by left].
Defined.

Lemma is_condition_satisfied_document_witness :
  ∃ document : gmap string value,
    document !! "x" = Some VNone ∧
    (is_condition_satisfied "true" ∅ filled_tracker (state [])).1 = Ok true.
Proof.
  destruct (is_condition_satisfied_document "true" ∅ filled_tracker (state [])
              "true" "true" eq_refl eq_refl) as (document & Hslots & _ & _ & Hres).
  exists document. split.
  - apply Hslots. vm_compute. reflexivity.
  - rewrite Hres. reflexivity.
Defined.

End flow_executor_more_examples.
